(** * Global CO2 dashboard (Lab7_Homework.py): filters and metrics

    A shallow embedding of the data path of the Streamlit script
    [Lab7_Homework.py]: [load_data], the two boolean-index filters that
    build [filtered_data] and [country_ranking_data], and the metrics
    computed from [filtered_data].

    The [co2] column is a pandas [float64] column; it is modelled by Rocq's
    primitive binary64 floats, whose operations are specified against
    [SpecFloat] by the axioms of [FloatAxioms].  The [year] column is an
    [int64] column after [astype(int)]; its values are modelled by [Z]. *)

From Stdlib Require Import ZArith Lia Bool List String.
From Stdlib Require Import Sorting.Sorted Sorting.Permutation.
From Stdlib Require Import Floats.
Import ListNotations.

Set Implicit Arguments.

(* ================================================================== *)
(** ** Binary64 vocabulary *)
(* ================================================================== *)

(** [x] is a number: what [fillna] leaves in a column. *)
Definition notna (x : float) : Prop := is_nan x = false.

(** The exponent of the last place of a binary64 number of magnitude
    [2^k]: [fexp prec emax] spelled out. *)
Definition fexp64 (k : Z) : Z := Z.max (k - 53) (-1074).

(* ================================================================== *)
(** ** Exceptions *)
(* ================================================================== *)

(** The exceptions the script can meet while loading, all of them
    subclasses of Python's [Exception]. *)
Inductive exn : Type :=
| URLError                      (* the fetch of DATA_URL failed *)
| ParserError                   (* the text fetched is not a CSV table *)
| KeyError (column : string)    (* df[column] on a missing column *)
| ValueError                    (* astype(int) on a value that is no integer,
                                   idxmax of a series with no number *)
| LabelError (l : nat)          (* df.loc[l] on a label that is absent *)
| IndexError                    (* df.iloc[i] out of bounds *)
| OverflowError.                (* an integer too large for int64 *)

Inductive result (A : Type) : Type :=
| Ok (a : A)
| Raise (e : exn).

Arguments Ok {A} a.
Arguments Raise {A} e.

Definition bind {A B} (m : result A) (k : A -> result B) : result B :=
  match m with
  | Ok a => k a
  | Raise e => Raise e
  end.

Notation "x <- m ;; k" := (bind m (fun x => k))
  (at level 61, m at next level, right associativity).

(** [try: body except Exception as e: handler e]. *)
Definition try_except {A} (body : result A) (handler : exn -> result A)
  : result A :=
  match body with
  | Ok a => Ok a
  | Raise e => handler e
  end.

(** [mapM] for [result]: the first failure, in row order, wins. *)
Fixpoint traverse {A B} (f : A -> result B) (l : list A) : result (list B) :=
  match l with
  | [] => Ok []
  | a :: l' => b <- f a ;; bs <- traverse f l' ;; Ok (b :: bs)
  end.

(* ================================================================== *)
(** ** Data model *)
(* ================================================================== *)

(** One row of the data frame, with the columns the script reads.  The
    [country] of a row is text, as it is in every row of the data set. *)
Record Row : Type := mkRow {
  country : string;
  year : Z;
  co2 : float;
  co2_per_capita : float;
  population : float
}.

(** A data frame: rows in order, each with its index label.  [read_csv]
    labels the rows 0, 1, 2, ...; boolean indexing, [sort_values], [head]
    and [copy] carry the labels along. *)
Definition label := nat.
Definition Frame := list (label * Row).

(** What [read_csv] leaves in a cell of the [year] column: an integer, a
    missing value (NaN), a number with a fraction or an exponent, or text
    that Python's [int] refuses.  The cells of a column share one dtype
    ([dtype_of] below). *)
Inductive year_cell : Type :=
| YInt (z : Z)
| YNaN
| YText (s : string)
| YFloat (f : float).

Record RawRow : Type := mkRawRow {
  raw_country : string;
  raw_year : year_cell;
  raw_co2 : float;               (* NaN where the field is empty *)
  raw_co2_per_capita : float;
  raw_population : float
}.

(** The table as parsed: the names of the columns present, and the rows.
    A field of a row whose column is absent is never read. *)
Record RawFrame : Type := mkRawFrame {
  raw_columns : list string;
  raw_rows : list RawRow
}.

(* ================================================================== *)
(** ** The pandas operations the script calls *)
(* ================================================================== *)

Module Pandas.

Open Scope float_scope.

(** [df[name]]: the values of a column, in row order. *)
Definition column {A} (f : Row -> A) (df : Frame) : list A :=
  map (fun lr => f (snd lr)) df.

(** Element-wise comparisons of a column with a scalar. *)
Definition eq_str (s : list string) (v : string) : list bool :=
  map (fun x => String.eqb x v) s.
Definition eq_int (s : list Z) (v : Z) : list bool :=
  map (fun x => Z.eqb x v) s.
Definition ge_int (s : list Z) (v : Z) : list bool :=
  map (fun x => Z.geb x v) s.
Definition le_int (s : list Z) (v : Z) : list bool :=
  map (fun x => Z.leb x v) s.

(** [s.isin(values)], [~m] and [a & b]. *)
Definition isin (s : list string) (values : list string) : list bool :=
  map (fun x => existsb (String.eqb x) values) s.
Definition invert (m : list bool) : list bool := map negb m.
Definition and_ (a b : list bool) : list bool :=
  map (fun p => fst p && snd p) (combine a b).

(** [df[mask]]: the rows at which the mask holds, labels kept. *)
Definition getitem_mask (df : Frame) (mask : list bool) : Frame :=
  map snd (filter fst (combine mask df)).

(** [df.head(n)] and [df.empty]. *)
Definition head (n : nat) (df : Frame) : Frame := firstn n df.
Definition empty (df : Frame) : bool :=
  match df with [] => true | _ => false end.

(** [df.iloc[0]] and [df.iloc[-1]]. *)
Definition iloc_first (df : Frame) : result Row :=
  match df with [] => Raise IndexError | lr :: _ => Ok (snd lr) end.
Definition iloc_last (df : Frame) : result Row :=
  match df with [] => Raise IndexError | lr :: df' => Ok (snd (last df' lr)) end.

(** [df.loc[l]]: the row labelled [l] (labels are unique in a frame
    that comes from [read_csv]). *)
Definition loc (df : Frame) (l : label) : result Row :=
  match find (fun lr => Nat.eqb (fst lr) l) df with
  | Some lr => Ok (snd lr)
  | None => Raise (LabelError l)
  end.

(** [df.sort_values(by='co2', ascending=False)].  pandas sets the NaN rows
    aside and appends them last; the other rows are reversed, sorted
    ascending, and the result reversed.  The sort is modelled by a stable
    insertion sort; numpy's default sort agrees with it up to the order of
    rows with equal keys. *)
Fixpoint insert_co2 (x : label * Row) (l : Frame) : Frame :=
  match l with
  | [] => [x]
  | y :: l' =>
      if co2 (snd x) <=? co2 (snd y) then x :: l else y :: insert_co2 x l'
  end.

Definition argsort_co2 (l : Frame) : Frame := fold_right insert_co2 [] l.

Definition isna_co2 (lr : label * Row) : bool := is_nan (co2 (snd lr)).

Definition sort_values_co2_desc (df : Frame) : Frame :=
  let non_nans := filter (fun lr => negb (isna_co2 lr)) df in
  let nans := filter isna_co2 df in
  rev (argsort_co2 (rev non_nans)) ++ nans.

(** numpy's pairwise summation of a [float64] array.  Fewer than 8 values
    are added one by one to -0.0.  Up to 128 values are added in eight
    lanes, lane [j] taking the values at the positions [j], [j + 8],
    [j + 16], ...; the lanes are then added two by two and the values
    left over, fewer than 8, one by one.  A longer array is cut in two,
    the first part a multiple of 8 long, and the sums of the parts are
    added. *)
Record lanes : Type := mkLanes {
  lane0 : float; lane1 : float; lane2 : float; lane3 : float;
  lane4 : float; lane5 : float; lane6 : float; lane7 : float
}.

Fixpoint add_lanes (r : lanes) (a : list float) : lanes * list float :=
  match a with
  | a0 :: a1 :: a2 :: a3 :: a4 :: a5 :: a6 :: a7 :: rest =>
      add_lanes
        (mkLanes (lane0 r + a0) (lane1 r + a1) (lane2 r + a2) (lane3 r + a3)
                 (lane4 r + a4) (lane5 r + a5) (lane6 r + a6) (lane7 r + a7))
        rest
  | _ => (r, a)
  end.

Definition sum_lanes (r : lanes) : float :=
  ((lane0 r + lane1 r) + (lane2 r + lane3 r))
  + ((lane4 r + lane5 r) + (lane6 r + lane7 r)).

Definition block_sum (a : list float) : float :=
  match a with
  | a0 :: a1 :: a2 :: a3 :: a4 :: a5 :: a6 :: a7 :: rest =>
      let (r, tail) := add_lanes (mkLanes a0 a1 a2 a3 a4 a5 a6 a7) rest in
      fold_left add tail (sum_lanes r)
  | _ => fold_left add a neg_zero
  end.

(** The cut of an array of [n] values: half of [n], less what exceeds a
    multiple of 8. *)
Definition cut (n : nat) : nat := (n / 2 - (n / 2) mod 8)%nat.

Fixpoint pairwise_sum_upto (depth : nat) (a : list float) : float :=
  if (List.length a <=? 128)%nat then block_sum a
  else
    match depth with
    | O => block_sum a
    | S depth' =>
        let n2 := cut (List.length a) in
        pairwise_sum_upto depth' (firstn n2 a)
        + pairwise_sum_upto depth' (skipn n2 a)
    end.

(** Each cut shortens the array, so a depth of its length is never used
    up ([pairwise_sum_long] below). *)
Definition pairwise_sum (a : list float) : float :=
  pairwise_sum_upto (List.length a) a.

(** [s.sum()] (skipna): NaN counts as zero, and numpy's [add.reduce] adds
    the pairwise sum of the values to its identity 0.0. *)
Definition fill_zero (x : float) : float := if is_nan x then 0 else x.
Definition sum (s : list float) : float :=
  0 + pairwise_sum (map fill_zero s).

(** The count of a series as a float. *)
Definition float_of_nat (n : nat) : float :=
  of_uint63 (Uint63.of_Z (Z.of_nat n)).

(** [s.mean()] (skipna): the sum divided by the number of values that
    are not NaN. *)
Definition count (s : list float) : nat :=
  List.length (filter (fun x => negb (is_nan x)) s).
Definition mean (s : list float) : float := sum s / float_of_nat (count s).

(** [s.idxmax()] (skipna): NaN is replaced by minus infinity and the
    position of the first greatest value is taken; a series with no
    number in it has no greatest value. *)
Definition fill_neg_inf (x : float) : float :=
  if is_nan x then neg_infinity else x.

(** [s.max()] (skipna) is computed by numpy apart from [idxmax], and numpy
    does not say which of two equal greatest values, -0.0 and 0.0, it
    returns.  The script takes [s.max()] as a parameter ([series_max]);
    [max_first] and [max_last] are two ways to compute it, the first
    keeping the earlier and the second the later of equal values. *)
Definition max_first (s : list float) : float :=
  if forallb is_nan s then nan
  else match map fill_neg_inf s with
       | [] => nan
       | x :: s' => fold_left (fun m y => if m <? y then y else m) s' x
       end.

Definition max_last (s : list float) : float :=
  if forallb is_nan s then nan
  else match map fill_neg_inf s with
       | [] => nan
       | x :: s' => fold_left (fun m y => if y <? m then m else y) s' x
       end.

Fixpoint argmax_from (best : label * float) (s : list (label * float))
  : label :=
  match s with
  | [] => fst best
  | ly :: s' =>
      if snd best <? snd ly then argmax_from ly s' else argmax_from best s'
  end.

Definition idxmax (s : list (label * float)) : result label :=
  if forallb (fun lx => is_nan (snd lx)) s then Raise ValueError
  else match map (fun lx => (fst lx, fill_neg_inf (snd lx))) s with
       | [] => Raise ValueError
       | lx :: s' => Ok (argmax_from lx s')
       end.

(** [s.unique()]: the distinct values, in order of first appearance. *)
Fixpoint unique (s : list string) : list string :=
  match s with
  | [] => []
  | x :: s' => x :: filter (fun y => negb (String.eqb y x)) (unique s')
  end.

End Pandas.

(* ================================================================== *)
(** ** The script *)
(* ================================================================== *)

Import Pandas.
Open Scope float_scope.
Open Scope string_scope.
Open Scope Z_scope.
Open Scope list_scope.

(** *** Loading (lines 18-38) *)

(** [df[name]] on the parsed table: [KeyError] when the column is absent. *)
Definition getitem_column (df : RawFrame) (name : string) : result unit :=
  if existsb (String.eqb name) (raw_columns df) then Ok tt
  else Raise (KeyError name).

(** The bounds of [int64], and the size of [uint64]. *)
Definition int64_min : Z := -9223372036854775808.
Definition int64_max : Z := 9223372036854775807.
Definition uint64_size : Z := 18446744073709551616.

(** The integer part of a finite float, rounded towards zero. *)
Definition float_trunc (f : float) : Z :=
  match Prim2SF f with
  | S754_finite s m e => cond_Zopp s (Z.shiftl (Z.pos m) e)
  | _ => 0
  end.

(** The cast of a finite [float64] to [int64]: the integer part when it
    fits; beyond the range C leaves the cast undefined, and the value
    taken here is the one x86-64 gives. *)
Definition float_to_int64 (f : float) : Z :=
  let t := float_trunc f in
  if (int64_min <=? t) && (t <=? int64_max) then t else int64_min.

(** The dtype of the [year] column.  It is [int64] when every cell is an
    integer that fits, and [uint64] when every cell is an integer that
    fits there while one is too large for [int64].  It is [object] when a
    cell is text, or when the cells are integers that fit neither.
    Otherwise integers come with a missing value or a fraction, and the
    column is [float64]. *)
Inductive dtype : Type := Int64 | UInt64 | Float64 | Object.

Definition fits_int64 (c : year_cell) : bool :=
  match c with
  | YInt z => (int64_min <=? z) && (z <=? int64_max)
  | _ => false
  end.

Definition fits_uint64 (c : year_cell) : bool :=
  match c with
  | YInt z => (0 <=? z) && (z <? uint64_size)
  | _ => false
  end.

Definition is_int (c : year_cell) : bool :=
  match c with YInt _ => true | _ => false end.

Definition is_text (c : year_cell) : bool :=
  match c with YText _ => true | _ => false end.

Definition dtype_of (s : list year_cell) : dtype :=
  if forallb fits_int64 s then Int64
  else if forallb fits_uint64 s then UInt64
  else if existsb is_text s then Object
  else if forallb is_int s then Object
  else Float64.

(** The value of a cell in an integer column. *)
Definition as_int (c : year_cell) : Z :=
  match c with YInt z => z | _ => 0 end.

(** The value of a cell in a [float64] column: an integer becomes the
    nearest float, which is the integer itself below 2^53. *)
Definition float_of_Z (z : Z) : float :=
  SF2Prim (binary_normalize prec emax z 0 false).

Definition as_float (c : year_cell) : float :=
  match c with
  | YInt z => float_of_Z z
  | YFloat f => f
  | YNaN | YText _ => nan
  end.

(** The cast of a [uint64] to [int64] wraps around. *)
Definition uint64_to_int64 (z : Z) : Z :=
  if z <=? int64_max then z else z - uint64_size.

(** A cell of an [object] column is converted by Python's [int], which
    refuses NaN and text (a numeral with a fraction is text to it); the
    integer is then stored as [int64], which overflows when it does not
    fit. *)
Definition object_to_int (c : year_cell) : result Z :=
  match c with
  | YInt z =>
      if (int64_min <=? z) && (z <=? int64_max) then Ok z
      else Raise OverflowError
  | _ => Raise ValueError
  end.

(** [astype(int)] on the [year] column, by its dtype: an [int64] column is
    kept, a [uint64] column wraps around, a [float64] column is refused
    when it holds NaN or an infinity and is cut to the integer parts
    otherwise, and an [object] column is converted cell by cell. *)
Definition astype_int (s : list year_cell) : result (list Z) :=
  match dtype_of s with
  | Int64 => Ok (map as_int s)
  | UInt64 => Ok (map (fun c => uint64_to_int64 (as_int c)) s)
  | Float64 =>
      let values := map as_float s in
      if forallb is_finite values then Ok (map float_to_int64 values)
      else Raise ValueError
  | Object => traverse object_to_int s
  end.

(** [fillna(0)] on the [co2] column. *)
Definition fillna0 (x : float) : float := if is_nan x then 0%float else x.

Definition clean_row (ry : RawRow * Z) : Row :=
  let (r, y) := ry in
  mkRow (raw_country r) y (fillna0 (raw_co2 r))
        (raw_co2_per_capita r) (raw_population r).

(** The default index of [read_csv]: 0, 1, 2, ... *)
Definition range_index (rows : list Row) : Frame :=
  combine (seq 0 (List.length rows)) rows.

(** The body of the [try] block; [read_csv] is the outcome of
    [pd.read_csv(DATA_URL)]. *)
Definition load_body (read_csv : result RawFrame) : result Frame :=
  df <- read_csv ;;
  _ <- getitem_column df "year" ;;
  years <- astype_int (map raw_year (raw_rows df)) ;;
  _ <- getitem_column df "co2" ;;
  Ok (range_index (map clean_row (combine (raw_rows df) years))).

(** [load_data]: the body under [except Exception], whose handler reports
    the error with [st.error] and returns the empty [pd.DataFrame()]. *)
Definition load_data (read_csv : result RawFrame) : result Frame :=
  try_except (load_body read_csv) (fun _ => Ok []).

(** *** Filtering (lines 81-107) *)

(** The names of the large aggregates left out of the ranking. *)
Definition aggregates : list string :=
  ["World"; "International Transport"; "Oceania"; "Asia"; "Europe"; "Africa"].

(** The [if selected_country == 'Global' ... else ...] statement, which
    assigns [filtered_data] and [country_ranking_data] in each branch. *)
Definition select (data : Frame) (selected_country : string)
  (start_year end_year : Z) : Frame * Frame :=
  if String.eqb selected_country "Global" then
    let filtered_data :=
      getitem_mask data
        (and_ (and_ (eq_str (column country data) "World")
                    (ge_int (column year data) start_year))
              (le_int (column year data) end_year)) in
    let country_ranking_data :=
      head 10 (sort_values_co2_desc
        (getitem_mask data
           (and_ (eq_int (column year data) end_year)
                 (invert (isin (column country data) aggregates))))) in
    (filtered_data, country_ranking_data)
  else
    let filtered_data :=
      getitem_mask data
        (and_ (and_ (eq_str (column country data) selected_country)
                    (ge_int (column year data) start_year))
              (le_int (column year data) end_year)) in
    let country_ranking_data :=
      head 10 (sort_values_co2_desc
        (getitem_mask data
           (and_ (eq_int (column year data) end_year)
                 (invert (isin (column country data) aggregates))))) in
    (filtered_data, country_ranking_data).

Definition filtered_data (data : Frame) (selected_country : string)
  (start_year end_year : Z) : Frame :=
  fst (select data selected_country start_year end_year).

Definition country_ranking_data (data : Frame) (selected_country : string)
  (start_year end_year : Z) : Frame :=
  snd (select data selected_country start_year end_year).

(** *** Metrics (lines 120-173) *)

Record KeyMetrics : Type := mkKeyMetrics {
  total_co2_emitted : float;
  avg_annual_co2 : float;
  max_emissions_year : Z;
  max_emissions_value : float
}.

(** The series [filtered_data['co2']] with its index: the label and the
    [co2] of each row. *)
Definition labelled_co2 (lr : label * Row) : label * float :=
  (fst lr, co2 (snd lr)).

(** Section 1 of the page: [Ok None] stands for the branch that shows
    "No data available for the selected filters."  The frame always has
    its [co2] column, so the second half of the test is true.
    [series_max] is pandas' [Series.max]. *)
Definition key_metrics (series_max : list float -> float)
  (filtered_data : Frame) : result (option KeyMetrics) :=
  if negb (empty filtered_data) then
    let total := sum (column co2 filtered_data) in
    let avg := mean (column co2 filtered_data) in
    l <- idxmax (map labelled_co2 filtered_data) ;;
    r <- loc filtered_data l ;;
    let peak_value := series_max (column co2 filtered_data) in
    Ok (Some (mkKeyMetrics total avg (year r) peak_value))
  else Ok None.

(** Section 2 of the page: the change between the first and the last row,
    [Ok None] when the metric is not shown. *)
Definition change_metric (filtered_data : Frame) : result (option float) :=
  if negb (empty filtered_data) then
    if (2 <=? List.length filtered_data)%nat then
      r0 <- iloc_first filtered_data ;;
      r1 <- iloc_last filtered_data ;;
      let start_emission := co2 r0 in
      let end_emission := co2 r1 in
      if negb (start_emission =? 0)%float then
        Ok (Some (((end_emission - start_emission) / start_emission) * 100)%float)
      else Ok (Some 0%float)
    else Ok None
  else Ok None.

(** The metrics of a slice taken together. *)
Record SummaryMetrics : Type := mkSummary {
  metrics : KeyMetrics;
  change_percent : option float
}.

Definition summarize (series_max : list float -> float)
  (filtered_data : Frame) : result (option SummaryMetrics) :=
  k <- key_metrics series_max filtered_data ;;
  c <- change_metric filtered_data ;;
  Ok (match k with
      | Some m => Some (mkSummary m c)
      | None => None
      end).

(** *** Options of the sidebar (lines 49-77) *)

(** Python's [sorted] on a list of strings: ascending in the order of the
    code points, which is the order of the bytes of their encoding. *)
Fixpoint insert_str (x : string) (l : list string) : list string :=
  match l with
  | [] => [x]
  | y :: l' => if String.leb x y then x :: l else y :: insert_str x l'
  end.

Definition sorted (l : list string) : list string :=
  fold_right insert_str [] l.

(** [l.remove(x)]: the first occurrence goes; [ValueError] when there is
    none. *)
Fixpoint list_remove (l : list string) (x : string) : result (list string) :=
  match l with
  | [] => Raise ValueError
  | y :: l' =>
      if String.eqb y x then Ok l'
      else l'' <- list_remove l' x ;; Ok (y :: l'')
  end.

(** [l.index(x)]: the position of the first occurrence; [ValueError] when
    there is none. *)
Fixpoint list_index (l : list string) (x : string) : result nat :=
  match l with
  | [] => Raise ValueError
  | y :: l' =>
      if String.eqb y x then Ok 0%nat
      else i <- list_index l' x ;; Ok (S i)
  end.

(** Lines 49-53: the options of the select box, for a frame that has its
    [country] column with a text in every row, as a [Row] holds it.
    ([sorted] raises [TypeError] on a column that mixes text with a
    missing country, before anything is removed.) *)
Definition country_list (data : Frame) : result (list string) :=
  let country_list := sorted (unique (column country data)) in
  country_list <- list_remove country_list "World" ;;
  let country_list := "United States" :: country_list in
  let country_list := "Global" :: country_list in
  Ok country_list.

(** Line 66: the option selected when the page opens. *)
Definition default_index (country_list : list string) : result nat :=
  if existsb (String.eqb "United States") country_list
  then list_index country_list "United States"
  else Ok 0%nat.

(** Lines 56-57: [int(data['year'].min())] and [int(data['year'].max())];
    the minimum of an empty column is NaN, which [int] refuses. *)
Definition min_year (data : Frame) : result Z :=
  match column year data with
  | [] => Raise ValueError
  | y :: ys => Ok (fold_left Z.min ys y)
  end.

Definition max_year (data : Frame) : result Z :=
  match column year data with
  | [] => Raise ValueError
  | y :: ys => Ok (fold_left Z.max ys y)
  end.

(** *** Preview (line 223) *)

(** The first 20 rows of [filtered_data], restricted to the columns
    [country], [year], [co2], [co2_per_capita] and [population], which are
    the columns a [Row] holds. *)
Definition preview (filtered_data : Frame) : Frame := head 20 filtered_data.

(* ================================================================== *)
(** ** Vocabulary of the statements *)
(* ================================================================== *)

(** The row test of the time series: the entity, and the years of the
    interval, both ends included. *)
Definition in_slice (entity : string) (start_year end_year : Z)
  (lr : label * Row) : bool :=
  String.eqb (country (snd lr)) entity
  && (start_year <=? year (snd lr)) && (year (snd lr) <=? end_year).

(** The row test of the ranking: the end year, aggregates left out. *)
Definition qualifies (end_year : Z) (lr : label * Row) : bool :=
  (year (snd lr) =? end_year)
  && negb (existsb (String.eqb (country (snd lr))) aggregates).

(** The entity whose rows make the time series. *)
Definition entity_of (selected_country : string) : string :=
  if String.eqb selected_country "Global" then "World" else selected_country.

Definition co2_notna (lr : label * Row) : Prop := notna (co2 (snd lr)).

(** [a] comes before [b] in ascending, in descending order of [co2]. *)
Definition co2_le (a b : label * Row) : Prop :=
  (co2 (snd a) <=? co2 (snd b))%float = true.
Definition co2_ge (a b : label * Row) : Prop :=
  (co2 (snd b) <=? co2 (snd a))%float = true.

(** [lr] is the first row of [slice] with the greatest [co2]: the rows
    before it are strictly below, the rows after it are not above. *)
Definition first_max (slice : Frame) (lr : label * Row) : Prop :=
  exists pre post,
    slice = pre ++ lr :: post /\
    Forall (fun y => (co2 (snd y) <? co2 (snd lr))%float = true) pre /\
    Forall (fun y => (co2 (snd y) <=? co2 (snd lr))%float = true) post.

(** What [load_data] guarantees of the frame it returns: the labels are
    those of [read_csv], each used once, and [co2] holds no NaN. *)
Definition well_formed (data : Frame) : Prop :=
  NoDup (map fst data) /\ Forall co2_notna data.

(** A [year] cell that [astype(int)] refuses: a missing value, text, or a
    float that is NaN or an infinity. *)
Definition not_coercible (c : year_cell) : Prop :=
  match c with
  | YInt _ => False
  | YNaN | YText _ => True
  | YFloat f => is_finite f = false
  end.

(** Rows in ascending order of [year]. *)
Definition year_le (a b : label * Row) : Prop := year (snd a) <= year (snd b).
Definition ascending_by_year (df : Frame) : Prop := Sorted year_le df.

(** The change shown for a first and a last emission. *)
Definition percent_change (first_co2 last_co2 : float) : float :=
  if (first_co2 =? 0)%float then 0%float
  else (((last_co2 - first_co2) / first_co2) * 100)%float.

(** What numpy guarantees of [s.max()] on a series of numbers that is not
    empty: the result is one of the values, and none is greater. *)
Definition max_contract (series_max : list float -> float) : Prop :=
  forall s, s <> [] -> Forall notna s ->
            In (series_max s) s /\
            forall x, In x s -> (x <=? series_max s)%float = true.







(** No two rows of the data set tell of the same country in the same
    year. *)
Definition unique_keys (data : Frame) : Prop :=
  NoDup (map (fun lr => (country (snd lr), year (snd lr))) data).

(** The data set has a row of country [c]. *)
Definition has_country (data : Frame) (c : string) : Prop :=
  exists lr, In lr data /\ country (snd lr) = c.


(** A table [load_data] can make rows of: both columns are there, and no
    year is one that [astype(int)] refuses. *)
Definition coercible_table (df : RawFrame) : Prop :=
  In "year" (raw_columns df) /\ In "co2" (raw_columns df) /\
  Forall (fun r => ~ not_coercible (raw_year r)) (raw_rows df).


(** The whole numbers from [lo], [n] of them. *)
Definition years_from (lo : Z) (n : nat) : list Z :=
  map (fun i => lo + Z.of_nat i) (seq 0 n).

(** [a] comes no later than [b] in the order of [sorted]. *)
Definition str_le (a b : string) : Prop := String.leb a b = true.

(* ================================================================== *)
(** ** Example data *)
(* ================================================================== *)

Definition row (c : string) (y : Z) (x : float) : Row := mkRow c y x nan nan.

(** Two years of the world total, in year order, among other rows. *)
Definition world_data : Frame :=
  range_index
    [ row "World" 2019 36000; row "France" 2020 300;
      row "World" 2020 34000; row "Asia" 2020 20000;
      row "China" 2020 10000; row "India" 2020 10000 ].

(** The same two years of the world total, the later year first. *)
Definition unordered_data : Frame :=
  range_index [ row "World" 2020 34000; row "World" 2019 36000 ].

(** A table whose second row has no year. *)
Definition raw_without_year : RawFrame :=
  mkRawFrame
    ["country"; "year"; "co2"; "co2_per_capita"; "population"]
    [ mkRawRow "World" (YInt 2019) 36000 nan nan;
      mkRawRow "World" YNaN 34000 nan nan ].

(** A table with no [co2] column. *)
Definition raw_without_co2 : RawFrame :=
  mkRawFrame
    ["country"; "year"; "co2_per_capita"; "population"]
    [ mkRawRow "World" (YInt 2019) nan nan nan ].

(** The world total of two years, the same in both, the later year
    first. *)
Definition tied_unordered_data : Frame :=
  range_index [ row "World" 2020 500; row "World" 2019 500 ].

(** Two rows tie at the greatest value; the earlier year is the peak. *)
Definition tied_slice : Frame :=
  [ (3%nat, row "France" 2001 400); (4%nat, row "France" 2002 500);
    (5%nat, row "France" 2003 500); (6%nat, row "France" 2004 100) ].

(** Twelve countries in one year, and the world total. *)
Definition twelve_data : Frame :=
  range_index
    [ row "A" 2020 10; row "B" 2020 120; row "C" 2020 30; row "D" 2020 40;
      row "E" 2020 50; row "F" 2020 60; row "World" 2020 900;
      row "G" 2020 70; row "H" 2020 80; row "I" 2020 90; row "J" 2020 100;
      row "K" 2020 110; row "L" 2020 20 ].

(* ================================================================== *)
(** ** Binary64 facts used by the development *)
(* ================================================================== *)

Module F64.

Open Scope float_scope.

(** Case analysis on the comparison of two specification floats. *)
Ltac sf_cases :=
  unfold SFleb, SFltb, SFeqb, SFcompare;
  repeat match goal with
         | s : bool |- _ => destruct s
         | |- context [Z.compare ?a ?b] => destruct (Z.compare_spec a b)
         | |- context [Pos.compare_cont Eq ?a ?b] =>
             change (Pos.compare_cont Eq a b) with (Pos.compare a b);
             destruct (Pos.compare_spec a b)
         end;
  simpl; intros; subst; try congruence; try lia; auto.

Lemma SFcompare_refl x : x <> S754_nan -> SFcompare x x = Some Eq.
Proof. destruct x; sf_cases. Qed.

Lemma SFleb_total x y :
  x <> S754_nan -> y <> S754_nan -> SFleb x y = true \/ SFleb y x = true.
Proof. destruct x, y; sf_cases. Qed.

Lemma SFleb_trans x y z :
  SFleb x y = true -> SFleb y z = true -> SFleb x z = true.
Proof. destruct x, y, z; sf_cases. Qed.

Lemma SFltb_false x y :
  x <> S754_nan -> y <> S754_nan -> SFltb x y = false -> SFleb y x = true.
Proof. destruct x, y; sf_cases. Qed.

Lemma SFltb_leb x y : SFltb x y = true -> SFleb x y = true.
Proof. destruct x, y; sf_cases. Qed.

Lemma SFltb_trans x y z :
  SFltb x y = true -> SFltb y z = true -> SFltb x z = true.
Proof. destruct x, y, z; sf_cases. Qed.

Lemma SFnlt_lt_trans x y z :
  x <> S754_nan -> y <> S754_nan ->
  SFltb x y = false -> SFltb x z = true -> SFltb y z = true.
Proof. destruct x, y, z; sf_cases. Qed.

Lemma SFltb_neq x y : SFltb x y = true -> SFeqb x y = false.
Proof. destruct x, y; sf_cases. Qed.

Lemma SFeqb_leb x y :
  SFeqb x y = true <-> SFleb x y = true /\ SFleb y x = true.
Proof.
  destruct x, y; sf_cases; split; sf_cases;
    intuition (try congruence; try lia).
Qed.

Lemma notna_SF x : notna x <-> Prim2SF x <> S754_nan.
Proof.
  unfold notna, is_nan. rewrite eqb_spec. unfold SFeqb. split.
  - intros H E. rewrite E in H. simpl in H. discriminate.
  - intros H. rewrite SFcompare_refl by assumption. reflexivity.
Qed.

Lemma leb_total x y : notna x -> notna y -> (x <=? y) = true \/ (y <=? x) = true.
Proof.
  rewrite !notna_SF, !leb_spec. apply SFleb_total.
Qed.

Lemma leb_refl x : notna x -> (x <=? x) = true.
Proof. intros H. destruct (leb_total H H); assumption. Qed.

Lemma leb_trans x y z :
  (x <=? y) = true -> (y <=? z) = true -> (x <=? z) = true.
Proof. rewrite !leb_spec. apply SFleb_trans. Qed.

Lemma ltb_false_leb x y :
  notna x -> notna y -> (x <? y) = false -> (y <=? x) = true.
Proof. rewrite !notna_SF, ltb_spec, leb_spec. apply SFltb_false. Qed.

Lemma ltb_leb x y : (x <? y) = true -> (x <=? y) = true.
Proof. rewrite ltb_spec, leb_spec. apply SFltb_leb. Qed.

Lemma ltb_trans x y z :
  (x <? y) = true -> (y <? z) = true -> (x <? z) = true.
Proof. rewrite !ltb_spec. apply SFltb_trans. Qed.

Lemma nlt_lt_trans x y z :
  notna x -> notna y ->
  (x <? y) = false -> (x <? z) = true -> (y <? z) = true.
Proof. rewrite !notna_SF, !ltb_spec. apply SFnlt_lt_trans. Qed.

Lemma ltb_neq x y : (x <? y) = true -> (x =? y) = false.
Proof. rewrite ltb_spec, eqb_spec. apply SFltb_neq. Qed.

Lemma eqb_leb x y :
  (x =? y) = true <-> (x <=? y) = true /\ (y <=? x) = true.
Proof. rewrite eqb_spec, !leb_spec. apply SFeqb_leb. Qed.

Lemma eqb_refl x : notna x -> (x =? x) = true.
Proof. intros H. apply eqb_leb. split; apply leb_refl; assumption. Qed.

Lemma eqb_sym x y : (x =? y) = true -> (y =? x) = true.
Proof. rewrite !eqb_leb. tauto. Qed.

Lemma eqb_trans x y z : (x =? y) = true -> (y =? z) = true -> (x =? z) = true.
Proof.
  rewrite !eqb_leb. intros [A B] [C D].
  split; eapply leb_trans; eassumption.
Qed.

(** *** Adding to zero *)

Lemma add_zero_l x : notna x -> (0 + x =? x) = true.
Proof.
  intros H. apply notna_SF in H.
  rewrite eqb_spec, add_spec.
  change (Prim2SF 0) with (S754_zero false).
  destruct (Prim2SF x) as [s|s| |s m e]; try congruence.
  - now destruct s.
  - now destruct s.
  - unfold SF64add, SFadd, SFeqb.
    rewrite SFcompare_refl by discriminate. reflexivity.
Qed.

Lemma neg_zero_add x : neg_zero + x = x.
Proof.
  apply Prim2SF_inj. rewrite add_spec.
  change (Prim2SF neg_zero) with (S754_zero true).
  destruct (Prim2SF x) as [s|s| |s m e]; try reflexivity.
  now destruct s.
Qed.

(** *** Dividing by one

    [x / 1] is [x] itself: the quotient of the mantissas is exact, so the
    rounding of [SFdiv] returns the canonical representation it started
    from. *)

Lemma div_eucl_exact a k : (0 < k)%Z -> Z.div_eucl (a * k) k = (a, 0%Z).
Proof.
  intros Hk.
  pose proof (Z.div_mul a k ltac:(lia)) as Hd.
  pose proof (Z.mod_mul a k ltac:(lia)) as Hm.
  unfold Z.div, Z.modulo in Hd, Hm.
  destruct (Z.div_eucl (a * k) k) as [q r]. simpl in *. congruence.
Qed.

Lemma fexp64_eq k : fexp prec emax k = fexp64 k.
Proof. reflexivity. Qed.

Lemma shr_fexp_fix m e :
  fexp64 (Z.pos (digits2_pos m) + e) = e ->
  shr_fexp prec emax (Z.pos m) e loc_Exact =
  ({| shr_m := Z.pos m; shr_r := false; shr_s := false |}, e).
Proof.
  intros H. unfold shr_fexp.
  change (Zdigits2 (Z.pos m)) with (Z.pos (digits2_pos m)).
  rewrite fexp64_eq, H, Z.sub_diag. reflexivity.
Qed.

Lemma shr_fexp_half m e :
  fexp64 (Z.pos (digits2_pos m) + e) = e ->
  (-1074 < e)%Z ->
  shr_fexp prec emax (Z.pos m~0) (e - 1) loc_Exact =
  ({| shr_m := Z.pos m; shr_r := false; shr_s := false |}, e).
Proof.
  intros H Hlt. unfold shr_fexp.
  change (Zdigits2 (Z.pos m~0)) with (Z.pos (Pos.succ (digits2_pos m))).
  rewrite fexp64_eq, Pos2Z.inj_succ.
  replace (fexp64 (Z.succ (Z.pos (digits2_pos m)) + (e - 1)) - (e - 1))%Z
    with 1%Z by (unfold fexp64 in *; lia).
  unfold shr. cbn [shr_record_of_loc iter_pos shr_1 orb].
  f_equal. lia.
Qed.

Lemma bounded_inv m e :
  bounded prec emax m e = true ->
  fexp64 (Z.pos (digits2_pos m) + e) = e /\ (e <=? emax - prec)%Z = true.
Proof.
  unfold bounded, canonical_mantissa. intros H.
  apply andb_true_iff in H. destruct H as [Hc He].
  apply Z.eqb_eq in Hc. rewrite fexp64_eq in Hc. now split.
Qed.

Lemma binary_round_aux_fix s m e :
  bounded prec emax m e = true ->
  binary_round_aux prec emax s (Z.pos m) e loc_Exact = S754_finite s m e.
Proof.
  intros H. destruct (bounded_inv _ _ H) as [Hc He].
  unfold binary_round_aux. rewrite shr_fexp_fix by assumption.
  cbn [shr_m loc_of_shr_record round_nearest_even].
  rewrite shr_fexp_fix by assumption. cbn [shr_m].
  now rewrite He.
Qed.

Lemma binary_round_aux_half s m e :
  bounded prec emax m e = true ->
  (-1074 < e)%Z ->
  binary_round_aux prec emax s (Z.pos m~0) (e - 1) loc_Exact = S754_finite s m e.
Proof.
  intros H Hlt. destruct (bounded_inv _ _ H) as [Hc He].
  unfold binary_round_aux. rewrite shr_fexp_half by assumption.
  cbn [shr_m loc_of_shr_record round_nearest_even].
  rewrite shr_fexp_fix by assumption. cbn [shr_m].
  now rewrite He.
Qed.

Lemma SFdiv_one s m e :
  bounded prec emax m e = true ->
  SF64div (S754_finite s m e) (S754_finite false 4503599627370496 (-52))
  = S754_finite s m e.
Proof.
  intros B. destruct (bounded_inv _ _ B) as [Hc He].
  apply Z.leb_le in He.
  unfold SF64div, SFdiv, SFdiv_core_binary.
  change (Zdigits2 (Z.pos m)) with (Z.pos (digits2_pos m)).
  change (Zdigits2 4503599627370496) with 53%Z.
  rewrite fexp64_eq, xorb_false_r.
  assert (Hd : (1 <= Z.pos (digits2_pos m))%Z) by lia.
  destruct (Z.eq_dec e (-1074)) as [E|E].
  - replace (Z.min _ _) with e by (unfold fexp64 in *; lia).
    replace (e - -52 - e)%Z with 52%Z by lia.
    rewrite Z.shiftl_mul_pow2 by lia.
    change (2 ^ 52)%Z with 4503599627370496%Z.
    rewrite div_eucl_exact by lia.
    change (new_location 4503599627370496 0) with loc_Exact.
    now apply binary_round_aux_fix.
  - replace (Z.min _ _) with (e - 1)%Z by (unfold fexp64 in *; lia).
    replace (e - -52 - (e - 1))%Z with 53%Z by lia.
    rewrite Z.shiftl_mul_pow2 by lia.
    replace (Z.pos m * 2 ^ 53)%Z
      with (Z.pos (xO m) * 4503599627370496)%Z by lia.
    rewrite div_eucl_exact by lia.
    change (new_location 4503599627370496 0) with loc_Exact.
    apply binary_round_aux_half; [assumption | unfold fexp64 in *; lia].
Qed.

Lemma div_one x : x / 1 = x.
Proof.
  apply Prim2SF_inj. rewrite div_spec.
  change (Prim2SF 1) with (S754_finite false 4503599627370496 (-52)).
  pose proof (Prim2SF_valid x) as V.
  destruct (Prim2SF x) as [s|s| |s m e].
  - now destruct s.
  - now destruct s.
  - reflexivity.
  - now apply SFdiv_one.
Qed.

(** *** Subtracting a finite number from itself *)

Lemma is_finite_SF x :
  is_finite x = true ->
  (exists s, Prim2SF x = S754_zero s) \/
  (exists s m e, Prim2SF x = S754_finite s m e).
Proof.
  unfold is_finite, is_nan, is_infinity.
  rewrite !eqb_spec, abs_spec.
  change (Prim2SF infinity) with (S754_infinity false).
  destruct (Prim2SF x) as [s|s| |s m e]; simpl.
  - intros _. left. now exists s.
  - intros H. exfalso. destruct s; simpl in H; discriminate.
  - discriminate.
  - intros _. right. now exists s, m, e.
Qed.

Lemma sub_diag x : is_finite x = true -> x - x = 0.
Proof.
  intros H. apply Prim2SF_inj. rewrite sub_spec.
  change (Prim2SF 0) with (S754_zero false).
  destruct (is_finite_SF x H) as [[s E]|[s [m [e E]]]]; rewrite E.
  - now destruct s.
  - unfold SF64sub, SFsub. rewrite Z.min_id.
    unfold shl_align. rewrite Z.sub_diag. cbn [fst].
    rewrite ?Z.sub_diag. reflexivity.
Qed.

Lemma zero_div_mul x :
  is_finite x = true -> (x =? 0) = false -> ((0 / x) * 100 =? 0) = true.
Proof.
  intros H Hnz. rewrite eqb_spec in Hnz.
  rewrite eqb_spec, mul_spec, div_spec.
  change (Prim2SF 0) with (S754_zero false) in *.
  change (Prim2SF 100) with (S754_finite false 7036874417766400 (-46)).
  destruct (is_finite_SF x H) as [[s E]|[s [m [e E]]]]; rewrite E in *.
  - destruct s; discriminate.
  - destruct s; reflexivity.
Qed.

End F64.

(* ================================================================== *)
(** ** Boolean indexing is filtering *)
(* ================================================================== *)

Section Masks.

Lemma and_map (A : Type) (p q : A -> bool) (l : list A) :
  and_ (map p l) (map q l) = map (fun x => p x && q x) l.
Proof.
  unfold and_. induction l as [|a l IH]; simpl; [reflexivity|].
  now rewrite IH.
Qed.

Lemma getitem_mask_map (p : label * Row -> bool) (df : Frame) :
  getitem_mask df (map p df) = filter p df.
Proof.
  unfold getitem_mask. induction df as [|lr df IH]; simpl; [reflexivity|].
  destruct (p lr); simpl; now rewrite IH.
Qed.

Lemma compare_column (A B : Type) (f : Row -> A) (c : A -> B) (df : Frame) :
  map c (column f df) = map (fun lr => c (f (snd lr))) df.
Proof. unfold column. now rewrite map_map. Qed.

End Masks.

Lemma slice_mask entity start_year end_year data :
  and_ (and_ (eq_str (column country data) entity)
             (ge_int (column year data) start_year))
       (le_int (column year data) end_year)
  = map (in_slice entity start_year end_year) data.
Proof.
  unfold eq_str, ge_int, le_int. rewrite !compare_column, !and_map.
  apply map_ext. intros lr. unfold in_slice. now rewrite Z.geb_leb.
Qed.

Lemma ranking_mask end_year data :
  and_ (eq_int (column year data) end_year)
       (invert (isin (column country data) aggregates))
  = map (qualifies end_year) data.
Proof.
  unfold eq_int, invert, isin. rewrite !compare_column, map_map, and_map.
  reflexivity.
Qed.

Lemma filtered_data_filter data selected_country start_year end_year :
  filtered_data data selected_country start_year end_year
  = filter (in_slice (entity_of selected_country) start_year end_year) data.
Proof.
  unfold filtered_data, select, entity_of.
  destruct (String.eqb selected_country "Global"); simpl;
    now rewrite slice_mask, getitem_mask_map.
Qed.

Lemma country_ranking_data_filter data selected_country start_year end_year :
  country_ranking_data data selected_country start_year end_year
  = head 10 (sort_values_co2_desc (filter (qualifies end_year) data)).
Proof.
  unfold country_ranking_data, select.
  destruct (String.eqb selected_country "Global"); simpl;
    now rewrite ranking_mask, getitem_mask_map.
Qed.

Lemma in_slice_spec entity start_year end_year lr :
  in_slice entity start_year end_year lr = true <->
  country (snd lr) = entity /\ start_year <= year (snd lr) <= end_year.
Proof.
  unfold in_slice. rewrite !andb_true_iff, String.eqb_eq, !Z.leb_le. tauto.
Qed.

Lemma isin_spec (s : string) (values : list string) :
  existsb (String.eqb s) values = true <-> In s values.
Proof.
  rewrite existsb_exists. split.
  - intros [x [Hx E]]. apply String.eqb_eq in E. now subst.
  - intros H. exists s. split; [assumption | apply String.eqb_refl].
Qed.

Lemma qualifies_spec end_year lr :
  qualifies end_year lr = true <->
  year (snd lr) = end_year /\ ~ In (country (snd lr)) aggregates.
Proof.
  unfold qualifies. rewrite andb_true_iff, negb_true_iff, Z.eqb_eq.
  rewrite <- isin_spec, not_true_iff_false. tauto.
Qed.

(* ================================================================== *)
(** ** Sorted lists *)
(* ================================================================== *)

Section SortedFacts.

Variable A : Type.
Variable R : A -> A -> Prop.

Lemma StronglySorted_app_iff (l1 l2 : list A) :
  StronglySorted R (l1 ++ l2) <->
  StronglySorted R l1 /\ StronglySorted R l2 /\
  (forall a b, In a l1 -> In b l2 -> R a b).
Proof.
  induction l1 as [|x l1 IH]; simpl.
  - split.
    + intros H. repeat split; [constructor | assumption | tauto].
    + tauto.
  - split.
    + intros H. apply StronglySorted_inv in H. destruct H as [Hs Hf].
      apply IH in Hs. destruct Hs as [H1 [H2 H3]].
      rewrite Forall_app in Hf. destruct Hf as [Hf1 Hf2].
      repeat split.
      * now constructor.
      * assumption.
      * intros a b [Ha|Ha] Hb.
        -- subst. rewrite Forall_forall in Hf2. now apply Hf2.
        -- now apply H3.
    + intros [H1 [H2 H3]]. apply StronglySorted_inv in H1.
      destruct H1 as [Hs Hf]. constructor.
      * apply IH. repeat split; auto.
      * rewrite Forall_app. split; [assumption|].
        rewrite Forall_forall. intros b Hb. apply H3; auto.
Qed.

Lemma StronglySorted_filter (p : A -> bool) (l : list A) :
  StronglySorted R l -> StronglySorted R (filter p l).
Proof.
  induction 1 as [|x l Hs IH Hf]; simpl; [constructor|].
  destruct (p x); [|assumption].
  constructor; [assumption|].
  rewrite Forall_forall in *. intros y Hy. apply filter_In in Hy.
  apply Hf. tauto.
Qed.

Lemma StronglySorted_firstn (n : nat) (l : list A) :
  StronglySorted R l -> StronglySorted R (firstn n l).
Proof.
  intros H. rewrite <- (firstn_skipn n l) in H.
  apply StronglySorted_app_iff in H. tauto.
Qed.

End SortedFacts.

Lemma StronglySorted_rev (A : Type) (R : A -> A -> Prop) (l : list A) :
  StronglySorted R l -> StronglySorted (fun a b => R b a) (rev l).
Proof.
  induction 1 as [|x l Hs IH Hf]; simpl; [constructor|].
  apply StronglySorted_app_iff. repeat split.
  - assumption.
  - repeat constructor.
  - intros a b Ha [Hb|[]]. subst b. apply in_rev in Ha.
    rewrite Forall_forall in Hf. now apply Hf.
Qed.

Section SortValues.

Lemma insert_co2_perm x l : Permutation (insert_co2 x l) (x :: l).
Proof.
  induction l as [|y l IH]; simpl; [reflexivity|].
  destruct (co2 (snd x) <=? co2 (snd y))%float; [reflexivity|].
  rewrite IH. apply perm_swap.
Qed.

Lemma argsort_co2_perm l : Permutation (argsort_co2 l) l.
Proof.
  induction l as [|x l IH]; simpl; [reflexivity|].
  rewrite insert_co2_perm. now constructor.
Qed.

Lemma insert_co2_sorted x l :
  co2_notna x -> Forall co2_notna l ->
  StronglySorted co2_le l -> StronglySorted co2_le (insert_co2 x l).
Proof.
  intros Hx Hl Hs. induction Hs as [|y l Hs IH Hf]; simpl.
  - repeat constructor.
  - apply Forall_cons_iff in Hl. destruct Hl as [Hy Hl].
    destruct (co2 (snd x) <=? co2 (snd y))%float eqn:E.
    + constructor; [now constructor|].
      constructor; [exact E|].
      rewrite Forall_forall in *. intros z Hz.
      unfold co2_le in *. eapply F64.leb_trans; [exact E | now apply Hf].
    + constructor; [now apply IH|].
      assert (Hyx : co2_le y x).
      { destruct (F64.leb_total Hx Hy) as [H|H]; [congruence | exact H]. }
      rewrite Forall_forall in *. intros z Hz.
      apply (Permutation_in _ (insert_co2_perm x l)) in Hz.
      destruct Hz as [Hz|Hz]; [now subst | now apply Hf].
Qed.

Lemma argsort_co2_sorted l :
  Forall co2_notna l -> StronglySorted co2_le (argsort_co2 l).
Proof.
  induction l as [|x l IH]; simpl; intros H; [constructor|].
  apply Forall_cons_iff in H. destruct H as [Hx Hl].
  apply insert_co2_sorted; auto.
  rewrite Forall_forall in *. intros y Hy. apply Hl.
  now apply (Permutation_in _ (argsort_co2_perm l)).
Qed.

Lemma filter_notna_id (df : Frame) :
  Forall co2_notna df -> filter (fun lr => negb (isna_co2 lr)) df = df.
Proof.
  induction 1 as [|x l Hx Hl IH]; simpl; [reflexivity|].
  unfold isna_co2 at 1. unfold co2_notna, notna in Hx.
  rewrite Hx. simpl. now rewrite IH.
Qed.

Lemma filter_isna_nil (df : Frame) :
  Forall co2_notna df -> filter isna_co2 df = [].
Proof.
  induction 1 as [|x l Hx Hl IH]; simpl; [reflexivity|].
  unfold isna_co2 at 1. unfold co2_notna, notna in Hx.
  now rewrite Hx.
Qed.

Lemma filter_partition_perm (A : Type) (p : A -> bool) (l : list A) :
  Permutation (filter (fun x => negb (p x)) l ++ filter p l) l.
Proof.
  induction l as [|x l IH]; simpl; [reflexivity|].
  destruct (p x); simpl.
  - rewrite <- Permutation_middle. now constructor.
  - now constructor.
Qed.

(** [sort_values] reorders the rows, whatever they hold. *)
Lemma sort_values_co2_desc_perm df : Permutation (sort_values_co2_desc df) df.
Proof.
  unfold sort_values_co2_desc.
  rewrite <- (filter_partition_perm isna_co2 df) at 3.
  apply Permutation_app_tail.
  rewrite <- Permutation_rev, argsort_co2_perm, <- Permutation_rev.
  reflexivity.
Qed.

(** On a column of numbers the result is in descending order. *)
Lemma sort_values_co2_desc_sorted df :
  Forall co2_notna df -> StronglySorted co2_ge (sort_values_co2_desc df).
Proof.
  intros H. unfold sort_values_co2_desc.
  rewrite filter_notna_id, filter_isna_nil, app_nil_r by assumption.
  apply (StronglySorted_rev (R := co2_le)).
  apply argsort_co2_sorted.
  rewrite Forall_forall in *. intros x Hx. apply H. now apply in_rev.
Qed.

End SortValues.

(* ================================================================== *)
(** ** The greatest value of a slice *)
(* ================================================================== *)

Section Maximum.

Lemma fill_neg_inf_id (s : list float) :
  Forall notna s -> map fill_neg_inf s = s.
Proof.
  induction 1 as [|x l Hx Hl IH]; simpl; [reflexivity|].
  unfold fill_neg_inf at 1. unfold notna in Hx. rewrite Hx.
  now rewrite IH.
Qed.


Lemma count_notna (s : list float) :
  Forall notna s -> count s = List.length s.
Proof.
  unfold count. induction 1 as [|x l Hx Hl IH]; simpl; [reflexivity|].
  unfold notna in Hx. rewrite Hx. simpl. now rewrite IH.
Qed.

Lemma column_notna (df : Frame) :
  Forall co2_notna df -> Forall notna (column co2 df).
Proof.
  unfold column. intros H. apply Forall_map.
  eapply Forall_impl; [|exact H]. auto.
Qed.

(** The scan of [idxmax] and of [max_first], started at row [b]. *)
Lemma argmax_from_first_max (b : label * Row) (df : Frame) :
  Forall co2_notna (b :: df) ->
  exists lr,
    first_max (b :: df) lr /\
    argmax_from (labelled_co2 b) (map labelled_co2 df) = fst lr /\
    fold_left (fun m y => if (m <? y)%float then y else m)
              (column co2 df) (co2 (snd b)) = co2 (snd lr).
Proof.
  revert b. induction df as [|y df IH]; intros b Hna.
  - exists b. split; [|split; reflexivity].
    exists [], []. repeat split; constructor.
  - apply Forall_cons_iff in Hna. destruct Hna as [Hb Hna].
    pose proof Hna as Hna'. apply Forall_cons_iff in Hna'.
    destruct Hna' as [Hy Hdf].
    simpl. destruct (co2 (snd b) <? co2 (snd y))%float eqn:E.
    + destruct (IH y Hna) as [lr [[pre [post [Hd [Hpre Hpost]]]] [Ha Hm]]].
      exists lr. split; [|split; assumption].
      exists (b :: pre), post. split; [now rewrite Hd|]. split; [|assumption].
      constructor; [|assumption].
      destruct pre as [|p pre]; simpl in Hd.
      * injection Hd as Hd _. now subst lr.
      * injection Hd as Hd _. subst p.
        apply Forall_cons_iff in Hpre. destruct Hpre as [Hp _].
        eapply F64.ltb_trans; eassumption.
    + destruct (IH b (Forall_cons _ Hb Hdf))
        as [lr [[pre [post [Hd [Hpre Hpost]]]] [Ha Hm]]].
      exists lr. split; [|split; assumption].
      destruct pre as [|p pre]; simpl in Hd.
      * injection Hd as Hd Hd'. subst lr post.
        exists [], (y :: df). repeat split; [constructor|].
        constructor; [|assumption].
        apply F64.ltb_false_leb; assumption.
      * injection Hd as Hd Hd'. subst p df.
        apply Forall_cons_iff in Hpre. destruct Hpre as [Hp Hpre].
        exists (b :: y :: pre), post. repeat split; [|assumption].
        constructor; [assumption|]. constructor; [|assumption].
        eapply F64.nlt_lt_trans; [exact Hb | exact Hy | exact E | exact Hp].
Qed.

Lemma forallb_is_nan_false (x : float) (s : list float) :
  notna x -> forallb is_nan (x :: s) = false.
Proof. intros H. simpl. unfold notna in H. now rewrite H. Qed.

Lemma loc_unique (df : Frame) (lr : label * Row) :
  NoDup (map fst df) -> In lr df -> loc df (fst lr) = Ok (snd lr).
Proof.
  unfold loc. induction df as [|x df IH]; simpl; intros Hnd Hin; [tauto|].
  apply NoDup_cons_iff in Hnd. destruct Hnd as [Hx Hnd].
  destruct Hin as [Hin|Hin].
  - subst x. now rewrite Nat.eqb_refl.
  - match goal with |- context [if ?c then _ else _] => destruct c eqn:E end.
    + apply Nat.eqb_eq in E. exfalso. apply Hx.
      exact (eq_ind_r (fun z => In z (map fst df)) (in_map fst _ _ Hin) E).
    + now apply IH.
Qed.

Lemma first_max_In slice lr : first_max slice lr -> In lr slice.
Proof.
  intros [pre [post [Hd _]]]. subst slice. apply in_elt.
Qed.

(** The greatest value is reached by every row's standard: no row of a
    slice of numbers is above the first greatest one. *)
Lemma first_max_ge slice lr :
  first_max slice lr -> Forall co2_notna slice ->
  forall y, In y slice -> co2_ge lr y.
Proof.
  intros [pre [post [Hd [Hpre Hpost]]]] Hna y Hy. subst slice.
  unfold co2_ge. rewrite Forall_forall in *.
  apply in_app_or in Hy. destruct Hy as [Hy|[Hy|Hy]].
  - apply F64.ltb_leb. now apply Hpre.
  - subst y. apply F64.leb_refl. apply (Hna lr). apply in_elt.
  - now apply Hpost.
Qed.

Lemma idxmax_notna (b : label * Row) (df : Frame) :
  Forall co2_notna (b :: df) ->
  idxmax (map labelled_co2 (b :: df))
  = Ok (argmax_from (labelled_co2 b) (map labelled_co2 df)).
Proof.
  intros Hna. unfold idxmax.
  assert (Hfill : map (fun lx => (fst lx, fill_neg_inf (snd lx)))
                      (map labelled_co2 (b :: df))
                  = map labelled_co2 (b :: df)).
  { rewrite map_map. apply map_ext_in. intros a Hin.
    unfold labelled_co2, fill_neg_inf. simpl.
    rewrite Forall_forall in Hna. specialize (Hna a Hin).
    unfold co2_notna, notna in Hna. now rewrite Hna. }
  rewrite Hfill.
  apply Forall_cons_iff in Hna. destruct Hna as [Hb _].
  unfold co2_notna, notna in Hb.
  simpl. now rewrite Hb.
Qed.

Lemma max_first_notna (x : float) (s : list float) :
  Forall notna (x :: s) ->
  max_first (x :: s)
  = fold_left (fun m y => if (m <? y)%float then y else m) s x.
Proof.
  intros Hna. unfold max_first. rewrite (fill_neg_inf_id Hna).
  apply Forall_cons_iff in Hna. destruct Hna as [Hx _].
  now rewrite (forallb_is_nan_false _ Hx).
Qed.

Lemma max_last_notna (x : float) (s : list float) :
  Forall notna (x :: s) ->
  max_last (x :: s)
  = fold_left (fun m y => if (y <? m)%float then m else y) s x.
Proof.
  intros Hna. unfold max_last. rewrite (fill_neg_inf_id Hna).
  apply Forall_cons_iff in Hna. destruct Hna as [Hx _].
  now rewrite (forallb_is_nan_false _ Hx).
Qed.

(** A scan that keeps one of the two values, and never the smaller one,
    ends on a greatest value. *)
Lemma scan_greatest (step : float -> float -> float) :
  (forall m y, notna m -> notna y ->
               (step m y = m \/ step m y = y) /\
               (m <=? step m y)%float = true /\
               (y <=? step m y)%float = true) ->
  forall s x, Forall notna (x :: s) ->
              In (fold_left step s x) (x :: s) /\
              forall z, In z (x :: s) ->
                        (z <=? fold_left step s x)%float = true.
Proof.
  intros Hstep. induction s as [|y s IH]; intros x Hna.
  - apply Forall_cons_iff in Hna. destruct Hna as [Hx _]. simpl. split.
    + now left.
    + intros z [<-|[]]. now apply F64.leb_refl.
  - apply Forall_cons_iff in Hna. destruct Hna as [Hx Hna].
    apply Forall_cons_iff in Hna. destruct Hna as [Hy Hs].
    destruct (Hstep x y Hx Hy) as [Hc [Hmx Hmy]].
    assert (Hn : notna (step x y)) by (destruct Hc as [->| ->]; assumption).
    destruct (IH (step x y) (Forall_cons _ Hn Hs)) as [Hin Hub].
    simpl. split.
    + destruct Hin as [Hin|Hin]; [|now right; right].
      rewrite <- Hin. destruct Hc as [->| ->]; [now left | now right; left].
    + intros z [<-|[<-|Hz]].
      * eapply F64.leb_trans; [exact Hmx | apply Hub; now left].
      * eapply F64.leb_trans; [exact Hmy | apply Hub; now left].
      * apply Hub. now right.
Qed.

Lemma max_first_meets_contract : max_contract max_first.
Proof.
  intros s Hne Hna. destruct s as [|x s]; [congruence|].
  rewrite (max_first_notna Hna). apply scan_greatest; [|exact Hna].
  intros m y Hm Hy. destruct (m <? y)%float eqn:E.
  - split; [now right|]. split; [now apply F64.ltb_leb | now apply F64.leb_refl].
  - split; [now left|]. split; [now apply F64.leb_refl|].
    now apply F64.ltb_false_leb.
Qed.

Lemma max_last_meets_contract : max_contract max_last.
Proof.
  intros s Hne Hna. destruct s as [|x s]; [congruence|].
  rewrite (max_last_notna Hna). apply scan_greatest; [|exact Hna].
  intros m y Hm Hy. destruct (y <? m)%float eqn:E.
  - split; [now left|]. split; [now apply F64.leb_refl | now apply F64.ltb_leb].
  - split; [now right|]. split; [|now apply F64.leb_refl].
    now apply F64.ltb_false_leb.
Qed.

(** Section 1 on a slice of numbers with unique labels. *)
Lemma key_metrics_first_max (series_max : list float -> float)
  (slice : Frame) :
  slice <> [] -> NoDup (map fst slice) -> Forall co2_notna slice ->
  exists lr,
    first_max slice lr /\
    key_metrics series_max slice =
    Ok (Some (mkKeyMetrics (sum (column co2 slice)) (mean (column co2 slice))
                           (year (snd lr))
                           (series_max (column co2 slice)))).
Proof.
  intros Hne Hnd Hna. destruct slice as [|b df]; [congruence|].
  destruct (argmax_from_first_max Hna) as [lr [Hfm [Ha _]]].
  exists lr. split; [assumption|].
  unfold key_metrics. cbn [empty negb].
  rewrite (idxmax_notna Hna). cbn [bind]. rewrite Ha.
  rewrite (loc_unique _ _ Hnd (first_max_In Hfm)). cbn [bind].
  reflexivity.
Qed.

(** Under the contract the value of [series_max] equals the [co2] of the
    first greatest row, as floats. *)
Lemma series_max_first_max (series_max : list float -> float)
  (slice : Frame) (lr : label * Row) :
  max_contract series_max -> Forall co2_notna slice ->
  first_max slice lr ->
  (series_max (column co2 slice) =? co2 (snd lr))%float = true.
Proof.
  intros Hc Hna Hfm.
  assert (Hne : column co2 slice <> []).
  { destruct Hfm as [pre [post [-> _]]]. unfold column.
    rewrite map_app. simpl. intros H. now apply app_eq_nil in H as [_ H]. }
  destruct (Hc _ Hne (column_notna Hna)) as [Hin Hub].
  apply F64.eqb_leb. split.
  - assert (He : exists y, co2 (snd y) = series_max (column co2 slice) /\
                           In y slice) by (apply in_map_iff; exact Hin).
    destruct He as [y [E Hy]]. rewrite <- E.
    exact (first_max_ge Hfm Hna y Hy).
  - apply Hub. unfold column.
    apply in_map with (f := fun x => co2 (snd x)). now apply first_max_In.
Qed.

End Maximum.

(* ================================================================== *)
(** ** The pairwise sum *)
(* ================================================================== *)

Section Summation.






(** The sum of a single number. *)
Lemma sum_single (x : float) : notna x -> sum [x] = (0 + x)%float.
Proof.
  intros H. unfold sum, fill_zero. simpl. unfold notna in H. rewrite H.
  unfold pairwise_sum. simpl. now rewrite F64.neg_zero_add.
Qed.

(** *** The pairwise sum adds every value once *)










End Summation.

(* ================================================================== *)
(** ** Well-formed data sets *)
(* ================================================================== *)

Section WellFormed.

Lemma labels_filter_NoDup (keep : label * Row -> bool) (df : Frame) :
  NoDup (map fst df) -> NoDup (map fst (filter keep df)).
Proof.
  intros Hnd. induction df as [|x df IH]; simpl; [constructor|].
  simpl in Hnd. apply NoDup_cons_iff in Hnd. destruct Hnd as [Hx Hl].
  destruct (keep x); simpl; [|now apply IH].
  constructor; [|now apply IH].
  intros Hin. apply Hx. apply in_map_iff in Hin.
  destruct Hin as [y [Hy Hin]]. apply filter_In in Hin.
  apply in_map_iff. exists y. tauto.
Qed.

Lemma Forall_filter (A : Type) (P : A -> Prop) (p : A -> bool) (l : list A) :
  Forall P l -> Forall P (filter p l).
Proof.
  rewrite !Forall_forall. intros H x Hx. apply filter_In in Hx.
  apply H. tauto.
Qed.

Lemma filter_filter_andb (A : Type) (p q : A -> bool) (l : list A) :
  filter q (filter p l) = filter (fun x => p x && q x) l.
Proof.
  induction l as [|x l IH]; simpl; [reflexivity|].
  destruct (p x); simpl; [|exact IH].
  destruct (q x); now rewrite IH.
Qed.

Lemma well_formed_filter (p : label * Row -> bool) (data : Frame) :
  well_formed data -> well_formed (filter p data).
Proof.
  intros [Hnd Hna]. split.
  - now apply labels_filter_NoDup.
  - now apply Forall_filter.
Qed.

Lemma well_formed_filtered_data data selected_country start_year end_year :
  well_formed data ->
  well_formed (filtered_data data selected_country start_year end_year).
Proof.
  rewrite filtered_data_filter. apply well_formed_filter.
Qed.

Lemma range_index_labels (rows : list Row) :
  map fst (range_index rows) = seq 0 (List.length rows).
Proof.
  unfold range_index. generalize 0%nat.
  induction rows as [|r rows IH]; intros n; simpl; [reflexivity|].
  now rewrite IH.
Qed.

Lemma range_index_rows (rows : list Row) :
  map snd (range_index rows) = rows.
Proof.
  unfold range_index. generalize 0%nat.
  induction rows as [|r rows IH]; intros n; simpl; [reflexivity|].
  now rewrite IH.
Qed.

Lemma fillna0_notna (x : float) : notna (fillna0 x).
Proof.
  unfold fillna0, notna. destruct (is_nan x) eqn:E; [reflexivity | exact E].
Qed.

Lemma range_index_well_formed (rows : list Row) :
  Forall (fun r => notna (co2 r)) rows -> well_formed (range_index rows).
Proof.
  intros H. split.
  - rewrite range_index_labels. apply seq_NoDup.
  - rewrite <- (range_index_rows rows) in H.
    rewrite Forall_map in H. exact H.
Qed.

(** The frame [load_data] returns is well formed, whatever was fetched. *)
Lemma load_data_well_formed (read_csv : result RawFrame) (data : Frame) :
  load_data read_csv = Ok data -> well_formed data.
Proof.
  unfold load_data, load_body, try_except.
  destruct read_csv as [df|e]; cbn [bind].
  2:{ intros H. injection H as <-. split; constructor. }
  destruct (getitem_column df "year"); cbn [bind].
  2:{ intros H. injection H as <-. split; constructor. }
  destruct (astype_int (map raw_year (raw_rows df))) as [years|e]; cbn [bind].
  2:{ intros H. injection H as <-. split; constructor. }
  destruct (getitem_column df "co2"); cbn [bind].
  2:{ intros H. injection H as <-. split; constructor. }
  intros H. injection H as <-.
  apply range_index_well_formed. apply Forall_map.
  apply Forall_forall. intros [r y] _. simpl. apply fillna0_notna.
Qed.

(** Hence every slice of a loaded data set is well formed. *)
Lemma loaded_slice_well_formed (read_csv : result RawFrame) (data : Frame)
  (selected_country : string) (start_year end_year : Z) :
  load_data read_csv = Ok data ->
  well_formed (filtered_data data selected_country start_year end_year).
Proof.
  intros H. apply well_formed_filtered_data.
  now apply load_data_well_formed with read_csv.
Qed.

Lemma traverse_fails (A B : Type) (f : A -> result B) (l : list A) :
  (exists a, In a l /\ exists e, f a = Raise e) ->
  exists e, traverse f l = Raise e.
Proof.
  induction l as [|x l IH]; intros [a [Hin [e He]]]; simpl in *; [tauto|].
  destruct (f x) as [b|e'] eqn:Ex; cbn [bind].
  - destruct Hin as [Hin|Hin]; [subst; congruence|].
    destruct IH as [e1 He1]; [now exists a; split; [|exists e]|].
    rewrite He1. now exists e1.
  - now exists e'.
Qed.

Lemma traverse_ok (A B : Type) (f : A -> result B) (l : list A)
  (bs : list B) :
  traverse f l = Ok bs -> Forall2 (fun a b => f a = Ok b) l bs.
Proof.
  revert bs. induction l as [|x l IH]; simpl; intros bs H.
  - injection H as <-. constructor.
  - destruct (f x) as [b|e] eqn:Ex; cbn [bind] in H; [|discriminate].
    destruct (traverse f l) as [bs'|e]; cbn [bind] in H; [|discriminate].
    injection H as <-. constructor; [assumption | now apply IH].
Qed.

(** What the dtype of a column tells of its cells. *)
Lemma dtype_of_cells (s : list year_cell) :
  match dtype_of s with
  | Int64 => forallb fits_int64 s = true
  | UInt64 => forallb fits_uint64 s = true
  | Float64 => forall c, In c s -> is_text c = false
  | Object => True
  end.
Proof.
  unfold dtype_of.
  destruct (forallb fits_int64 s) eqn:E1; [reflexivity|].
  destruct (forallb fits_uint64 s) eqn:E2; [reflexivity|].
  destruct (existsb is_text s) eqn:E3; [exact I|].
  destruct (forallb is_int s); [exact I|].
  intros c Hc. destruct (is_text c) eqn:Et; [|reflexivity].
  assert (Hex : existsb is_text s = true)
    by (apply existsb_exists; now exists c).
  congruence.
Qed.

Lemma fits_int64_whole (c : year_cell) :
  fits_int64 c = true -> exists z, c = YInt z.
Proof. destruct c; simpl; try discriminate. now eexists. Qed.

Lemma fits_uint64_whole (c : year_cell) :
  fits_uint64 c = true -> exists z, c = YInt z.
Proof. destruct c; simpl; try discriminate. now eexists. Qed.

(** A column with a cell that no integer can be made of is refused. *)
Lemma astype_int_refuses (s : list year_cell) (c : year_cell) :
  In c s -> not_coercible c -> exists e, astype_int s = Raise e.
Proof.
  intros Hin Hc. unfold astype_int.
  pose proof (dtype_of_cells s) as Hd.
  destruct (dtype_of s).
  - rewrite forallb_forall in Hd.
    destruct (fits_int64_whole _ (Hd c Hin)) as [z ->]. contradiction.
  - rewrite forallb_forall in Hd.
    destruct (fits_uint64_whole _ (Hd c Hin)) as [z ->]. contradiction.
  - assert (Hf : is_finite (as_float c) = false).
    { specialize (Hd c Hin).
      destruct c as [z| |t|f]; simpl in *;
        [contradiction | reflexivity | discriminate | exact Hc]. }
    cbv zeta.
    destruct (forallb is_finite (map as_float s)) eqn:E; [|now eexists].
    rewrite forallb_forall in E.
    rewrite (E (as_float c)) in Hf by now apply in_map.
    discriminate.
  - apply traverse_fails. exists c. split; [assumption|].
    exists ValueError. destruct c; simpl in *; [contradiction | | |];
      reflexivity.
Qed.

(** A column that is converted has as many integers as cells, and no cell
    of it is one that no integer can be made of. *)
Lemma astype_int_ok (s : list year_cell) (years : list Z) :
  astype_int s = Ok years ->
  List.length years = List.length s /\
  Forall (fun c => ~ not_coercible c) s.
Proof.
  unfold astype_int. pose proof (dtype_of_cells s) as Hd.
  destruct (dtype_of s).
  - intros H. injection H as <-. split; [apply length_map|].
    rewrite forallb_forall in Hd. apply Forall_forall. intros c Hc.
    destruct (fits_int64_whole _ (Hd c Hc)) as [z ->]. simpl. tauto.
  - intros H. injection H as <-. split; [apply length_map|].
    rewrite forallb_forall in Hd. apply Forall_forall. intros c Hc.
    destruct (fits_uint64_whole _ (Hd c Hc)) as [z ->]. simpl. tauto.
  - cbv zeta.
    destruct (forallb is_finite (map as_float s)) eqn:E; [|discriminate].
    intros H. injection H as <-. split; [now rewrite !length_map|].
    rewrite forallb_forall in E. apply Forall_forall. intros c Hc.
    specialize (Hd c Hc). specialize (E (as_float c) (in_map _ _ _ Hc)).
    destruct c as [z| |t|f]; simpl in *; try tauto; try discriminate.
    congruence.
  - intros H. apply traverse_ok in H. split.
    + symmetry. exact (Forall2_length H).
    + clear Hd. induction H as [|c y s ys Hcy _ IH]; constructor;
        [|exact IH].
      destruct c; simpl in *; try discriminate. tauto.
Qed.


Lemma getitem_column_missing (df : RawFrame) (name : string) :
  ~ In name (raw_columns df) -> getitem_column df name = Raise (KeyError name).
Proof.
  intros H. unfold getitem_column.
  destruct (existsb (String.eqb name) (raw_columns df)) eqn:E; [|reflexivity].
  apply isin_spec in E. contradiction.
Qed.

(** Each failure inside the [try] block ends in the empty frame. *)
Lemma load_data_of_failure (read_csv : result RawFrame) (e : exn) :
  load_body read_csv = Raise e -> load_data read_csv = Ok [].
Proof. unfold load_data, try_except. now intros ->. Qed.

Lemma load_body_year_missing (df : RawFrame) :
  ~ In "year" (raw_columns df) -> load_body (Ok df) = Raise (KeyError "year").
Proof.
  intros H. unfold load_body. cbn [bind].
  now rewrite (getitem_column_missing _ _ H).
Qed.

Lemma load_body_year_not_coercible (df : RawFrame) :
  (exists r, In r (raw_rows df) /\ not_coercible (raw_year r)) ->
  exists e, load_body (Ok df) = Raise e.
Proof.
  intros [r [Hin Hc]]. unfold load_body. cbn [bind].
  destruct (getitem_column df "year"); cbn [bind]; [|now eexists].
  destruct (@astype_int_refuses (map raw_year (raw_rows df)) (raw_year r))
    as [e He]; [now apply in_map | assumption |].
  rewrite He. now exists e.
Qed.

Lemma load_body_co2_missing (df : RawFrame) :
  ~ In "co2" (raw_columns df) -> exists e, load_body (Ok df) = Raise e.
Proof.
  intros H. unfold load_body. cbn [bind].
  destruct (getitem_column df "year"); cbn [bind]; [|now eexists].
  destruct (astype_int (map raw_year (raw_rows df))); cbn [bind];
    [|now eexists].
  rewrite (getitem_column_missing _ _ H). now eexists.
Qed.

End WellFormed.

(* ================================================================== *)
(** ** The script on the example data *)
(* ================================================================== *)

Example world_slice :
  filtered_data world_data "Global" 2019 2020
  = [ (0%nat, row "World" 2019 36000); (2%nat, row "World" 2020 34000) ].
Proof. reflexivity. Qed.

Example world_summary :
  summarize max_first (filtered_data world_data "Global" 2019 2020)
  = Ok (Some (mkSummary (mkKeyMetrics 70000 35000 2019 36000)
                        (Some (-0x1.638e38e38e38ep+2)%float))).
Proof. reflexivity. Qed.

Example unknown_entity_summary :
  filtered_data world_data "Atlantis" 2019 2020 = [] /\
  summarize max_first (filtered_data world_data "Atlantis" 2019 2020) = Ok None.
Proof. split; reflexivity. Qed.

Example world_ranking :
  country_ranking_data world_data "Global" 2019 2020
  = [ (4%nat, row "China" 2020 10000); (5%nat, row "India" 2020 10000);
      (1%nat, row "France" 2020 300) ].
Proof. reflexivity. Qed.

Example tied_summary :
  summarize max_first tied_slice
  = Ok (Some (mkSummary (mkKeyMetrics 1500 375 2002 500) (Some (-75)%float))).
Proof. reflexivity. Qed.

(** On rows that are not in year order the first greatest row, in row
    order, gives the peak year. *)
Example unordered_summary :
  summarize max_first
    [ (0%nat, row "World" 2020 500); (1%nat, row "World" 2019 500) ]
  = Ok (Some (mkSummary (mkKeyMetrics 1000 500 2020 500) (Some 0%float))).
Proof. reflexivity. Qed.

(** Ten rows of 0.1 (the nearest float, 0x1.999999999999ap-4): the
    pairwise sum is 1, where adding them one by one gives the float below
    1. *)
Example ten_tenths :
  sum (repeat 0x1.999999999999ap-4%float 10) = 1%float /\
  fold_left add (repeat 0x1.999999999999ap-4%float 10) 0%float
  = 0x1.fffffffffffffp-1%float.
Proof. split; reflexivity. Qed.

(** The two ways of taking the greatest value differ on zeros of opposite
    signs, and both meet the contract of [series_max]. *)
Example max_of_signed_zeros :
  max_first [neg_zero; 0%float] = neg_zero /\
  max_last [neg_zero; 0%float] = 0%float.
Proof. split; reflexivity. Qed.

Example years_as_integers :
  astype_int [YInt 2019; YInt 2020] = Ok [2019; 2020] /\
  astype_int [YInt 2019; YInt 9223372036854775808]
  = Ok [2019; -9223372036854775808] /\
  astype_int [YInt (-1); YInt 9223372036854775808] = Raise OverflowError /\
  astype_int [YInt (10 ^ 30)] = Raise OverflowError /\
  astype_int [YInt 2019; YFloat 2019.5] = Ok [2019; 2019] /\
  astype_int [YFloat (-2019.5)] = Ok [-2019] /\
  astype_int [YInt 2019; YNaN] = Raise ValueError /\
  astype_int [YFloat infinity] = Raise ValueError /\
  astype_int [YInt 2019; YText "n/a"] = Raise ValueError.
Proof. repeat split; reflexivity. Qed.

Example clean_load :
  load_data
    (Ok (mkRawFrame ["country"; "year"; "co2"]
           [ mkRawRow "World" (YInt 2019) 36000 nan nan;
             mkRawRow "World" (YInt 2020) nan nan nan ]))
  = Ok [ (0%nat, row "World" 2019 36000); (1%nat, row "World" 2020 0) ].
Proof. reflexivity. Qed.

(* ================================================================== *)
(** ** The time series *)
(* ================================================================== *)

(** C1.  [filtered_data] holds exactly the rows of the data set, in their
    order, whose country is "World" when "Global" is selected and the
    selected country otherwise, and whose year lies between the start and
    the end year, both included; when no row matches the result is the
    empty frame. *)
Theorem filtered_data_exact :
  forall (data : Frame) (selected_country : string) (start_year end_year : Z),
    let entity :=
      if String.eqb selected_country "Global" then "World"
      else selected_country in
    filtered_data data selected_country start_year end_year
    = filter (fun lr => String.eqb (country (snd lr)) entity
                        && (start_year <=? year (snd lr))
                        && (year (snd lr) <=? end_year)) data
    /\ (forall lr,
          In lr (filtered_data data selected_country start_year end_year) <->
          In lr data /\ country (snd lr) = entity /\
          start_year <= year (snd lr) <= end_year)
    /\ ((forall lr, In lr data ->
           ~ (country (snd lr) = entity /\
              start_year <= year (snd lr) <= end_year)) ->
        filtered_data data selected_country start_year end_year = []).
Proof.
  intros data sel s e entity.
  assert (Heq : filtered_data data sel s e = filter (in_slice entity s e) data)
    by apply filtered_data_filter.
  split; [exact Heq|]. split.
  - intros lr. rewrite Heq, filter_In, in_slice_spec. tauto.
  - intros Hnone. rewrite Heq. clear Heq.
    induction data as [|x data IH]; simpl; [reflexivity|].
    destruct (in_slice entity s e x) eqn:E.
    + apply in_slice_spec in E. exfalso. apply (Hnone x); simpl; auto.
    + apply IH. intros lr Hin. apply Hnone. now right.
Qed.

(** C3 (as stated) fails: the world rows of [unordered_data] come later
    year first, and [filtered_data] returns them in that order. *)
Lemma filtered_data_not_sorted :
  2019 <= 2020 /\
  filtered_data unordered_data "Global" 2019 2020 = unordered_data /\
  ~ ascending_by_year (filtered_data unordered_data "Global" 2019 2020).
Proof.
  split; [lia|]. split; [reflexivity|].
  intros H. change (filtered_data unordered_data "Global" 2019 2020)
    with unordered_data in H.
  unfold unordered_data, range_index in H. simpl in H.
  apply Sorted_inv in H. destruct H as [_ H].
  apply HdRel_inv in H. unfold year_le in H. simpl in H. lia.
Qed.

#[local] Instance year_le_trans : RelationClasses.Transitive year_le.
Proof. unfold year_le. intros a b c. lia. Qed.

Lemma ascending_filter (p : label * Row -> bool) (df : Frame) :
  ascending_by_year df -> ascending_by_year (filter p df).
Proof.
  unfold ascending_by_year. intros H.
  apply StronglySorted_Sorted, StronglySorted_filter.
  now apply Sorted_StronglySorted; [apply year_le_trans|].
Qed.

(** C3 (amended).  [filtered_data] keeps the order of the data set: it is
    in ascending order of year whenever the rows of the entity come in
    ascending order of year in the data set. *)
Theorem filtered_data_sorted_when_source_is :
  forall (data : Frame) (selected_country : string) (start_year end_year : Z),
    let entity :=
      if String.eqb selected_country "Global" then "World"
      else selected_country in
    ascending_by_year
      (filter (fun lr => String.eqb (country (snd lr)) entity) data) ->
    ascending_by_year
      (filtered_data data selected_country start_year end_year).
Proof.
  intros data sel s e entity H.
  rewrite filtered_data_filter. change (entity_of sel) with entity.
  replace (filter (in_slice entity s e) data)
    with (filter (fun lr => (s <=? year (snd lr)) && (year (snd lr) <=? e))
            (filter (fun lr => String.eqb (country (snd lr)) entity) data)).
  - now apply ascending_filter.
  - rewrite filter_filter_andb. apply filter_ext. intros lr.
    unfold in_slice. now rewrite andb_assoc.
Qed.

Lemma filtered_data_sorted_witness :
  ascending_by_year (filtered_data world_data "Global" 2019 2020).
Proof.
  apply (filtered_data_sorted_when_source_is world_data "Global" 2019 2020).
  unfold ascending_by_year, year_le. simpl.
  repeat constructor. simpl. lia.
Defined.

(* ================================================================== *)
(** ** The ranking *)
(* ================================================================== *)

Lemma In_firstn (A : Type) (n : nat) (l : list A) (x : A) :
  In x (firstn n l) -> In x l.
Proof.
  intros H. rewrite <- (firstn_skipn n l). apply in_or_app. now left.
Qed.

(** C2.  On a data set whose [co2] holds no NaN, [country_ranking_data] is
    the first 10 rows of the rows of the end year outside the six
    aggregates, put in descending order of [co2]: it holds no aggregate,
    has at most 10 rows, is in descending order, and holds every
    qualifying row when there are no more than 10 of them. *)
Theorem country_ranking_data_top10 :
  forall (data : Frame) (selected_country : string) (start_year end_year : Z),
    Forall co2_notna data ->
    let ranking :=
      country_ranking_data data selected_country start_year end_year in
    let qualifying :=
      filter (fun lr =>
                (year (snd lr) =? end_year)
                && negb (existsb (String.eqb (country (snd lr)))
                           ["World"; "International Transport"; "Oceania";
                            "Asia"; "Europe"; "Africa"])) data in
    (exists sorted,
        Permutation sorted qualifying /\
        StronglySorted co2_ge sorted /\
        ranking = firstn 10 sorted) /\
    StronglySorted co2_ge ranking /\
    (forall lr, In lr ranking ->
       In lr data /\ year (snd lr) = end_year /\
       ~ In (country (snd lr))
           ["World"; "International Transport"; "Oceania";
            "Asia"; "Europe"; "Africa"]) /\
    (List.length ranking <= 10)%nat /\
    List.length ranking = Nat.min 10 (List.length qualifying) /\
    ((List.length qualifying <= 10)%nat -> Permutation ranking qualifying).
Proof.
  intros data sel s e Hna ranking qualifying.
  change qualifying with (filter (qualifies e) data) in *.
  assert (Hr : ranking = firstn 10 (sort_values_co2_desc qualifying))
    by apply country_ranking_data_filter.
  assert (Hq : Forall co2_notna qualifying) by now apply Forall_filter.
  pose proof (sort_values_co2_desc_perm qualifying) as Hperm.
  pose proof (sort_values_co2_desc_sorted Hq) as Hsorted.
  split; [|split; [|split; [|split; [|split]]]].
  - exists (sort_values_co2_desc qualifying). auto.
  - rewrite Hr. now apply StronglySorted_firstn.
  - intros lr Hin. rewrite Hr in Hin. apply In_firstn in Hin.
    apply (Permutation_in _ Hperm) in Hin.
    apply filter_In in Hin. destruct Hin as [Hin Hqual].
    apply qualifies_spec in Hqual. tauto.
  - rewrite Hr. apply firstn_le_length.
  - rewrite Hr, length_firstn. now rewrite (Permutation_length Hperm).
  - intros Hlen. rewrite Hr, firstn_all2; [exact Hperm|].
    now rewrite (Permutation_length Hperm).
Qed.

Lemma world_data_notna : Forall co2_notna world_data.
Proof. repeat constructor. Qed.

Lemma country_ranking_data_top10_witness :
  StronglySorted co2_ge (country_ranking_data world_data "Global" 2019 2020)
  /\ (List.length (country_ranking_data world_data "Global" 2019 2020) <= 10)%nat.
Proof.
  pose proof (country_ranking_data_top10 "Global" 2019 2020 world_data_notna)
    as H.
  cbv zeta in H. tauto.
Defined.

(** C9.  The ranking does not depend on the selected entity: the branch
    taken when "Global" is selected and the branch taken for any other
    selection compute the same [country_ranking_data]. *)
Theorem country_ranking_data_independent :
  forall (data : Frame) (selected_country : string) (start_year end_year : Z),
    country_ranking_data data "Global" start_year end_year
    = country_ranking_data data selected_country start_year end_year.
Proof.
  intros data sel s e. unfold country_ranking_data, select.
  change (String.eqb "Global" "Global") with true. cbv iota.
  destruct (String.eqb sel "Global"); reflexivity.
Qed.

(* ================================================================== *)
(** ** Loading *)
(* ================================================================== *)

(** C6 (as stated) fails: a table with a row whose year cannot be coerced,
    and a table without its [co2] column, both make [load_data] return the
    empty frame; no error reaches the caller. *)
Lemma load_data_degrades_on_schema_failure :
  (exists r, In r (raw_rows raw_without_year) /\ not_coercible (raw_year r)) /\
  load_data (Ok raw_without_year) = Ok [] /\
  ~ (exists e, load_data (Ok raw_without_year) = Raise e) /\
  ~ In "co2" (raw_columns raw_without_co2) /\
  load_data (Ok raw_without_co2) = Ok [] /\
  ~ (exists e, load_data (Ok raw_without_co2) = Raise e).
Proof.
  split.
  { exists (mkRawRow "World" YNaN 34000 nan nan).
    split; [right; left; reflexivity | exact I]. }
  split; [reflexivity|]. split; [intros [e He]; discriminate|].
  split.
  { simpl. intuition discriminate. }
  split; [reflexivity|]. intros [e He]. discriminate.
Qed.

(** C6 (amended).  When a row's year cannot be coerced to an integer, or
    the [year] or the [co2] column is missing, [load_data] returns the
    empty frame, as it does when the fetch fails. *)
Theorem load_data_schema_failure_is_empty :
  forall (df : RawFrame),
    (exists r, In r (raw_rows df) /\ not_coercible (raw_year r)) \/
    ~ In "year" (raw_columns df) \/ ~ In "co2" (raw_columns df) ->
    load_data (Ok df) = Ok [] /\ load_data (Raise URLError) = Ok [].
Proof.
  intros df H. split; [|reflexivity].
  destruct H as [H|[H|H]].
  - destruct (load_body_year_not_coercible _ H) as [e He].
    now apply load_data_of_failure with e.
  - now apply load_data_of_failure with (KeyError "year"),
      load_body_year_missing.
  - destruct (load_body_co2_missing _ H) as [e He].
    now apply load_data_of_failure with e.
Qed.

Lemma load_data_schema_failure_witness :
  load_data (Ok raw_without_year) = Ok [] /\
  load_data (Raise URLError) = Ok [].
Proof.
  apply (load_data_schema_failure_is_empty raw_without_year).
  left. exists (mkRawRow "World" YNaN 34000 nan nan).
  split; [right; left; reflexivity | exact I].
Defined.

(** C10.  [load_data] returns a frame for every outcome of the fetch and
    every table: an exception raised inside it, be it by the fetch, by the
    parser, by the coercion of a year or by a missing [year] or [co2]
    column, is turned into the empty frame, and none reaches the caller. *)
Theorem load_data_total :
  (forall read_csv, exists data, load_data read_csv = Ok data) /\
  (forall read_csv e, load_body read_csv = Raise e ->
                      load_data read_csv = Ok []) /\
  (forall e, load_data (Raise e) = Ok []) /\
  (forall df,
      (exists r, In r (raw_rows df) /\ not_coercible (raw_year r)) ->
      load_data (Ok df) = Ok []) /\
  (forall df, ~ In "year" (raw_columns df) -> load_data (Ok df) = Ok []) /\
  (forall df, ~ In "co2" (raw_columns df) -> load_data (Ok df) = Ok []).
Proof.
  split; [|split; [|split; [|split; [|split]]]].
  - intros read_csv. unfold load_data, try_except.
    destruct (load_body read_csv) as [data|e]; eauto.
  - intros read_csv e. apply load_data_of_failure.
  - reflexivity.
  - intros df H. destruct (load_body_year_not_coercible _ H) as [e He].
    now apply load_data_of_failure with e.
  - intros df H. now apply load_data_of_failure with (KeyError "year"),
      load_body_year_missing.
  - intros df H. destruct (load_body_co2_missing _ H) as [e He].
    now apply load_data_of_failure with e.
Qed.

(* ================================================================== *)
(** ** The metrics *)
(* ================================================================== *)

Section Metrics.

Lemma last_app_singleton (A : Type) (l : list A) (x d : A) :
  last (l ++ [x]) d = x.
Proof. apply last_last. Qed.

Lemma change_metric_two_rows (first_row last_row : label * Row) (mid : Frame) :
  change_metric (first_row :: mid ++ [last_row])
  = Ok (Some (percent_change (co2 (snd first_row)) (co2 (snd last_row)))).
Proof.
  unfold change_metric. cbn [empty negb].
  replace (2 <=? List.length (first_row :: mid ++ [last_row]))%nat with true.
  2:{ symmetry. apply Nat.leb_le. simpl. rewrite length_app. simpl. lia. }
  cbn [iloc_first iloc_last bind]. rewrite last_app_singleton.
  unfold percent_change.
  now destruct (co2 (snd first_row) =? 0)%float.
Qed.

Lemma change_metric_short (slice : Frame) :
  (List.length slice < 2)%nat -> change_metric slice = Ok None.
Proof.
  destruct slice as [|a [|b slice]]; simpl; intros H; try reflexivity; lia.
Qed.

Lemma change_metric_total (slice : Frame) :
  exists c, change_metric slice = Ok c.
Proof.
  destruct slice as [|a slice]; [now exists None|].
  destruct (exists_last (l := a :: slice)) as [init [z Hz]]; [discriminate|].
  destruct init as [|a' init].
  - exists None. simpl in Hz. injection Hz as -> ->. reflexivity.
  - simpl in Hz. injection Hz as <- ->. eexists.
    apply change_metric_two_rows.
Qed.

(** [summarize] on a slice that is not empty. *)
Lemma summarize_first_max (series_max : list float -> float)
  (slice : Frame) :
  slice <> [] -> well_formed slice ->
  exists lr c,
    first_max slice lr /\ change_metric slice = Ok c /\
    summarize series_max slice =
    Ok (Some (mkSummary
                (mkKeyMetrics (sum (column co2 slice)) (mean (column co2 slice))
                              (year (snd lr))
                              (series_max (column co2 slice)))
                c)).
Proof.
  intros Hne [Hnd Hna].
  destruct (key_metrics_first_max series_max Hne Hnd Hna) as [lr [Hfm Hk]].
  destruct (change_metric_total slice) as [c Hc].
  exists lr, c. split; [assumption|]. split; [assumption|].
  unfold summarize. now rewrite Hk, Hc.
Qed.

Lemma mean_notna (s : list float) :
  Forall notna s ->
  mean s = (sum s / float_of_nat (List.length s))%float.
Proof.
  intros H. unfold mean. now rewrite count_notna.
Qed.

End Metrics.

(** C4.  With two rows or more the change is
    (last co2 - first co2) / first co2 * 100 when the first co2 differs
    from zero, and 0 when it is zero; no error is raised.  With fewer
    than two rows no change is produced.  [summarize] reports the change
    of [change_metric]. *)
Theorem change_percent_guarded :
  forall (series_max : list float -> float) (slice : Frame),
    (forall first_row mid last_row,
        slice = first_row :: mid ++ [last_row] ->
        change_metric slice
        = Ok (Some (if (co2 (snd first_row) =? 0)%float then 0%float
                    else (((co2 (snd last_row) - co2 (snd first_row))
                           / co2 (snd first_row)) * 100)%float))) /\
    ((List.length slice < 2)%nat -> change_metric slice = Ok None) /\
    (slice <> [] -> well_formed slice ->
     exists m, summarize series_max slice = Ok (Some m) /\
               change_metric slice = Ok (change_percent m)).
Proof.
  intros series_max slice. split; [|split].
  - intros first_row mid last_row ->. apply change_metric_two_rows.
  - apply change_metric_short.
  - intros Hne Hwf.
    destruct (summarize_first_max series_max Hne Hwf)
      as [lr [c [_ [Hc Hs]]]].
    eexists. split; [exact Hs|]. exact Hc.
Qed.

Lemma change_percent_guarded_witness :
  change_metric (filtered_data world_data "Global" 2019 2020)
  = Ok (Some (-0x1.638e38e38e38ep+2)%float).
Proof.
  destruct (change_percent_guarded max_first
              (filtered_data world_data "Global" 2019 2020)) as [H _].
  exact (H (0%nat, row "World" 2019 36000) []
           (2%nat, row "World" 2020 34000) eq_refl).
Defined.




(** C7 (as stated) fails: the two world rows of [tied_unordered_data] hold
    the same [co2], the row of 2020 comes first, and the peak year is
    2020 although the tied row of 2019 is earlier. *)
Lemma peak_year_not_earliest :
  filtered_data tied_unordered_data "Global" 2019 2020 = tied_unordered_data /\
  In (1%nat, row "World" 2019 500)
     (filtered_data tied_unordered_data "Global" 2019 2020) /\
  (co2 (row "World" 2019 500) =? co2 (row "World" 2020 500))%float = true /\
  2019 < 2020 /\
  (forall series_max,
      exists m,
        summarize series_max
          (filtered_data tied_unordered_data "Global" 2019 2020)
        = Ok (Some m) /\
        max_emissions_year (metrics m) = 2020).
Proof.
  split; [reflexivity|]. split; [right; left; reflexivity|].
  split; [reflexivity|]. split; [lia|].
  intros series_max. eexists. split; reflexivity.
Qed.

(** C7 (amended).  The peak year is the year of the first row, in the
    order of the slice, among the rows with the greatest [co2]: the rows
    before it hold less, the rows after it hold no more.  When the slice
    is in ascending order of year, no row with the same [co2] has an
    earlier year. *)
Theorem peak_year_is_first_greatest :
  forall (series_max : list float -> float) (slice : Frame),
    slice <> [] -> well_formed slice ->
    exists m pre peak post,
      summarize series_max slice = Ok (Some m) /\
      slice = pre ++ peak :: post /\
      max_emissions_year (metrics m) = year (snd peak) /\
      (forall lr, In lr pre ->
                  (co2 (snd lr) <? co2 (snd peak))%float = true) /\
      (forall lr, In lr post ->
                  (co2 (snd lr) <=? co2 (snd peak))%float = true) /\
      (ascending_by_year slice ->
       forall lr, In lr slice ->
                  (co2 (snd lr) =? co2 (snd peak))%float = true ->
                  max_emissions_year (metrics m) <= year (snd lr)).
Proof.
  intros series_max slice Hne Hwf.
  destruct (summarize_first_max series_max Hne Hwf)
    as [lr [c [Hfm [_ Hs]]]].
  destruct Hfm as [pre [post [Hd [Hpre Hpost]]]].
  rewrite Forall_forall in Hpre, Hpost.
  eexists. exists pre, lr, post. split; [exact Hs|].
  cbn [metrics max_emissions_year].
  split; [exact Hd|]. split; [reflexivity|].
  split; [exact Hpre|]. split; [exact Hpost|].
  intros Hasc y Hy Htie. subst slice.
  apply Sorted_StronglySorted in Hasc; [|apply year_le_trans].
  apply StronglySorted_app_iff in Hasc. destruct Hasc as [_ [Hs2 _]].
  apply StronglySorted_inv in Hs2. destruct Hs2 as [_ Hafter].
  apply in_app_or in Hy. destruct Hy as [Hy|[Hy|Hy]].
  - apply Hpre in Hy. apply F64.ltb_neq in Hy. congruence.
  - subst y. lia.
  - rewrite Forall_forall in Hafter. exact (Hafter y Hy).
Qed.

Lemma tied_slice_well_formed : well_formed tied_slice.
Proof.
  split.
  - repeat constructor; simpl; intuition discriminate.
  - repeat constructor.
Qed.

Lemma tied_slice_ascending : ascending_by_year tied_slice.
Proof.
  unfold ascending_by_year, tied_slice, year_le.
  repeat constructor; simpl; lia.
Qed.

Lemma peak_year_is_first_greatest_witness :
  exists m pre peak post,
    summarize max_first tied_slice = Ok (Some m) /\
    tied_slice = pre ++ peak :: post /\
    max_emissions_year (metrics m) = year (snd peak) /\
    (forall lr, In lr pre ->
                (co2 (snd lr) <? co2 (snd peak))%float = true) /\
    (forall lr, In lr post ->
                (co2 (snd lr) <=? co2 (snd peak))%float = true) /\
    (ascending_by_year tied_slice ->
     forall lr, In lr tied_slice ->
                (co2 (snd lr) =? co2 (snd peak))%float = true ->
                max_emissions_year (metrics m) <= year (snd lr)).
Proof.
  apply (@peak_year_is_first_greatest max_first tied_slice).
  - discriminate.
  - apply tied_slice_well_formed.
Defined.

(** C8.  When exactly one row of the data set is a row of entity X in
    year Y, the summary of the slice for X over [Y, Y] has a total and a
    mean both equal to the [co2] of that row, and no change. *)
Theorem single_year_round_trip :
  forall (series_max : list float -> float)
         (data pre post : Frame) (selected_country : string) (Y : Z)
         (l : label) (r : Row),
    let entity :=
      if String.eqb selected_country "Global" then "World"
      else selected_country in
    well_formed data ->
    data = pre ++ (l, r) :: post ->
    country r = entity -> year r = Y ->
    (forall lr, In lr (pre ++ post) ->
                ~ (country (snd lr) = entity /\ year (snd lr) = Y)) ->
    filtered_data data selected_country Y Y = [(l, r)] /\
    exists m,
      summarize series_max (filtered_data data selected_country Y Y)
      = Ok (Some m) /\
      (total_co2_emitted (metrics m) =? co2 r)%float = true /\
      (avg_annual_co2 (metrics m) =? co2 r)%float = true /\
      (total_co2_emitted (metrics m) =? avg_annual_co2 (metrics m))%float
      = true /\
      change_percent m = None.
Proof.
  intros series_max data pre post sel Y l r entity Hwf Hd Hc Hy Hothers.
  assert (Hnone : forall part, (forall lr, In lr part -> In lr (pre ++ post)) ->
                               filter (in_slice entity Y Y) part = []).
  { induction part as [|x part IH]; intros Hsub; simpl; [reflexivity|].
    destruct (in_slice entity Y Y x) eqn:E.
    - apply in_slice_spec in E. exfalso.
      apply (Hothers x); [apply Hsub; now left|]. split; [tauto | lia].
    - apply IH. intros lr Hin. apply Hsub. now right. }
  assert (Hslice : filtered_data data sel Y Y = [(l, r)]).
  { rewrite filtered_data_filter. change (entity_of sel) with entity.
    rewrite Hd, filter_app. simpl.
    assert (E : in_slice entity Y Y (l, r) = true).
    { apply in_slice_spec. simpl. split; [assumption | lia]. }
    rewrite E, !Hnone; [reflexivity | |];
      intros lr Hin; apply in_or_app; auto. }
  split; [exact Hslice|].
  assert (Hr : notna (co2 r)).
  { destruct Hwf as [_ Hna]. rewrite Forall_forall in Hna.
    apply (Hna (l, r)). rewrite Hd. apply in_elt. }
  rewrite Hslice.
  assert (Hwf1 : well_formed [(l, r)]).
  { split; repeat constructor; [simpl; tauto | exact Hr]. }
  destruct (@summarize_first_max series_max [(l, r)]
              ltac:(discriminate) Hwf1)
    as [lr [c [_ [Hc1 Hs]]]].
  eexists. split; [exact Hs|].
  cbn [metrics total_co2_emitted avg_annual_co2 change_percent].
  assert (Hcol : Forall notna (column co2 [(l, r)]))
    by (repeat constructor; exact Hr).
  rewrite (mean_notna Hcol). cbn [column map snd].
  rewrite (sum_single Hr).
  change (float_of_nat (List.length [co2 r])) with 1%float.
  rewrite F64.div_one.
  pose proof (F64.add_zero_l Hr) as Hadd.
  split; [exact Hadd|]. split; [exact Hadd|]. split.
  - eapply F64.eqb_trans; [exact Hadd | now apply F64.eqb_sym].
  - rewrite (change_metric_short [(l, r)]) in Hc1 by (simpl; lia).
    congruence.
Qed.

Lemma world_data_well_formed : well_formed world_data.
Proof.
  split.
  - repeat constructor; simpl; intuition discriminate.
  - repeat constructor.
Qed.

Lemma single_year_round_trip_witness :
  filtered_data world_data "France" 2020 2020 = [(1%nat, row "France" 2020 300)]
  /\ exists m,
      summarize max_first (filtered_data world_data "France" 2020 2020)
      = Ok (Some m) /\
      (total_co2_emitted (metrics m) =? 300)%float = true /\
      (avg_annual_co2 (metrics m) =? 300)%float = true /\
      (total_co2_emitted (metrics m) =? avg_annual_co2 (metrics m))%float
      = true /\
      change_percent m = None.
Proof.
  apply (@single_year_round_trip max_first world_data
           [(0%nat, row "World" 2019 36000)]
           [(2%nat, row "World" 2020 34000); (3%nat, row "Asia" 2020 20000);
            (4%nat, row "China" 2020 10000); (5%nat, row "India" 2020 10000)]
           "France" 2020 1%nat (row "France" 2020 300)).
  - apply world_data_well_formed.
  - reflexivity.
  - reflexivity.
  - reflexivity.
  - simpl. intros lr H.
    repeat (destruct H as [H|H]; [subst lr; simpl; intuition discriminate|]).
    contradiction.
Defined.

(* ================================================================== *)
(** ** Further properties: loading *)
(* ================================================================== *)

Section LoadingMore.


Lemma getitem_column_ok (df : RawFrame) (name : string) (u : unit) :
  getitem_column df name = Ok u -> In name (raw_columns df).
Proof.
  unfold getitem_column.
  destruct (existsb (String.eqb name) (raw_columns df)) eqn:E;
    [|discriminate].
  intros _. now apply isin_spec.
Qed.


Lemma range_index_length (rows : list Row) :
  List.length (range_index rows) = List.length rows.
Proof.
  unfold range_index. rewrite length_combine, length_seq. apply Nat.min_id.
Qed.

End LoadingMore.



(** X2.  [load_data] returns rows only for a table it can make rows of:
    when the frame returned is not empty, the fetch succeeded, the [year]
    and [co2] columns are there, no year is a missing value, text, NaN or
    an infinity, and no row was dropped. *)
Theorem load_data_rows_only_if_coercible :
  forall (read_csv : result RawFrame) (data : Frame),
    load_data read_csv = Ok data -> data <> [] ->
    exists df,
      read_csv = Ok df /\ coercible_table df /\
      List.length data = List.length (raw_rows df).
Proof.
  intros read_csv data H Hne.
  unfold load_data, load_body, try_except in H.
  destruct read_csv as [df|e]; cbn [bind] in H; [|congruence].
  exists df. split; [reflexivity|].
  destruct (getitem_column df "year") as [u|e] eqn:Ey; cbn [bind] in H;
    [|congruence].
  destruct (astype_int (map raw_year (raw_rows df))) as [years|e] eqn:Ea;
    cbn [bind] in H; [|congruence].
  destruct (getitem_column df "co2") as [u'|e] eqn:Ec; cbn [bind] in H;
    [|congruence].
  apply astype_int_ok in Ea. destruct Ea as [Hlen Hcells].
  rewrite length_map in Hlen. injection H as <-.
  split.
  - split; [now apply getitem_column_ok with u|].
    split; [now apply getitem_column_ok with u'|].
    rewrite Forall_map in Hcells. exact Hcells.
  - rewrite range_index_length, length_map, length_combine, Hlen.
    apply Nat.min_id.
Qed.

Lemma load_data_rows_only_if_coercible_witness :
  exists df,
    Ok (mkRawFrame ["country"; "year"; "co2"]
          [ mkRawRow "World" (YFloat 2019.5) 36000 nan nan ]) = Ok df /\
    coercible_table df /\
    List.length [ (0%nat, row "World" 2019 36000) ]
    = List.length (raw_rows df).
Proof.
  apply (@load_data_rows_only_if_coercible
           (Ok (mkRawFrame ["country"; "year"; "co2"]
                  [ mkRawRow "World" (YFloat 2019.5) 36000 nan nan ]))
           [ (0%nat, row "World" 2019 36000) ]).
  - reflexivity.
  - discriminate.
Defined.



(* ================================================================== *)
(** ** Further properties: the time series and its preview *)
(* ================================================================== *)

Section SliceMore.

Lemma filter_none (A : Type) (keep : A -> bool) (l : list A) :
  (forall x, In x l -> keep x = false) -> filter keep l = [].
Proof.
  induction l as [|x l IH]; simpl; intros H; [reflexivity|].
  rewrite (H x (or_introl eq_refl)). apply IH. intros y Hy. apply H. now right.
Qed.

(** The keys of the rows kept by a filter are still distinct. *)
Lemma filter_keeps_distinct (B : Type) (key : label * Row -> B)
  (keep : label * Row -> bool) (df : Frame) :
  NoDup (map key df) -> NoDup (map key (filter keep df)).
Proof.
  intros Hnd. induction df as [|x df IH]; simpl; [constructor|].
  simpl in Hnd. apply NoDup_cons_iff in Hnd. destruct Hnd as [Hx Hl].
  destruct (keep x); simpl; [|now apply IH].
  constructor; [|now apply IH].
  intros Hin. apply Hx. apply in_map_iff in Hin.
  destruct Hin as [y [Hy Hin]]. apply filter_In in Hin.
  apply in_map_iff. exists y. tauto.
Qed.

Lemma years_from_In (lo hi y : Z) :
  lo <= y <= hi -> In y (years_from lo (Z.to_nat (hi - lo + 1))).
Proof.
  intros H. unfold years_from. apply in_map_iff.
  exists (Z.to_nat (y - lo)). split; [lia|].
  apply in_seq. lia.
Qed.

(** In a slice of a data set with distinct keys the years are distinct. *)
Lemma slice_years_distinct data selected_country start_year end_year :
  unique_keys data ->
  NoDup (column year
           (filtered_data data selected_country start_year end_year)).
Proof.
  intros Hk. rewrite filtered_data_filter.
  set (entity := entity_of selected_country).
  pose proof (filter_keeps_distinct
                (fun lr => (country (snd lr), year (snd lr)))
                (in_slice entity start_year end_year) _ Hk) as Hnd.
  assert (E : map (fun lr : label * Row => (country (snd lr), year (snd lr)))
                  (filter (in_slice entity start_year end_year) data)
              = map (fun y => (entity, y))
                    (column year
                       (filter (in_slice entity start_year end_year) data))).
  { unfold column. rewrite map_map. apply map_ext_in.
    intros lr Hin. apply filter_In in Hin. destruct Hin as [_ Hin].
    apply in_slice_spec in Hin. destruct Hin as [-> _]. reflexivity. }
  rewrite E in Hnd. now apply NoDup_map_inv in Hnd.
Qed.

Lemma slice_length_le data selected_country start_year end_year :
  unique_keys data ->
  (List.length (filtered_data data selected_country start_year end_year)
   <= Z.to_nat (end_year - start_year + 1))%nat.
Proof.
  intros Hk.
  pose proof (slice_years_distinct selected_country start_year end_year Hk)
    as Hnd.
  assert (Hincl : incl (column year (filtered_data data selected_country
                                       start_year end_year))
                       (years_from start_year
                          (Z.to_nat (end_year - start_year + 1)))).
  { intros y Hy. unfold column in Hy. apply in_map_iff in Hy.
    destruct Hy as [lr [<- Hin]].
    rewrite filtered_data_filter in Hin. apply filter_In in Hin.
    destruct Hin as [_ Hin]. apply in_slice_spec in Hin.
    apply years_from_In. tauto. }
  pose proof (NoDup_incl_length Hnd Hincl) as Hlen.
  unfold column, years_from in Hlen.
  now rewrite !length_map, length_seq in Hlen.
Qed.

End SliceMore.

(** X4.  An interval whose end lies before its start selects no row, and
    the metrics then show "no data". *)
Theorem empty_interval_no_data :
  forall (series_max : list float -> float)
         (data : Frame) (selected_country : string) (start_year end_year : Z),
    end_year < start_year ->
    filtered_data data selected_country start_year end_year = [] /\
    summarize series_max
      (filtered_data data selected_country start_year end_year)
    = Ok None.
Proof.
  intros series_max data sel s e Hlt.
  assert (H : filtered_data data sel s e = []).
  { rewrite filtered_data_filter. apply filter_none. intros lr _.
    destruct (in_slice (entity_of sel) s e lr) eqn:E; [|reflexivity].
    apply in_slice_spec in E. lia. }
  split; [exact H|]. now rewrite H.
Qed.

Lemma empty_interval_no_data_witness :
  filtered_data world_data "Global" 2020 2019 = [] /\
  summarize max_first (filtered_data world_data "Global" 2020 2019) = Ok None.
Proof.
  apply (@empty_interval_no_data max_first world_data "Global" 2020 2019). lia.
Defined.

(** X5.  Filtering a slice again with the same selection and another
    interval gives the slice of the data set over the intersection of the
    two intervals; in particular filtering twice with the same interval
    changes nothing. *)
Theorem filtered_data_twice :
  forall (data : Frame) (selected_country : string)
         (start_year end_year start_year' end_year' : Z),
    filtered_data
      (filtered_data data selected_country start_year end_year)
      selected_country start_year' end_year'
    = filtered_data data selected_country
        (Z.max start_year start_year') (Z.min end_year end_year')
    /\ filtered_data
         (filtered_data data selected_country start_year end_year)
         selected_country start_year end_year
       = filtered_data data selected_country start_year end_year.
Proof.
  intros data sel s e s' e'.
  assert (H : forall a b a' b',
             filtered_data (filtered_data data sel a b) sel a' b'
             = filtered_data data sel (Z.max a a') (Z.min b b')).
  { intros a b a' b'. rewrite !filtered_data_filter, filter_filter_andb.
    apply filter_ext. intros lr. unfold in_slice.
    destruct (String.eqb (country (snd lr)) (entity_of sel)); simpl;
      [|reflexivity].
    apply eq_true_iff_eq.
    rewrite !andb_true_iff, !Z.leb_le. lia. }
  split; [apply H|].
  now rewrite H, Z.max_id, Z.min_id.
Qed.

(** X6.  When no two rows of the data set tell of the same country in the
    same year, the years of a slice are all different and the slice has at
    most one row for each year of the interval. *)
Theorem slice_one_row_per_year :
  forall (data : Frame) (selected_country : string) (start_year end_year : Z),
    unique_keys data ->
    NoDup (column year
             (filtered_data data selected_country start_year end_year)) /\
    (List.length (filtered_data data selected_country start_year end_year)
     <= Z.to_nat (end_year - start_year + 1))%nat.
Proof.
  intros data sel s e Hk. split.
  - now apply slice_years_distinct.
  - now apply slice_length_le.
Qed.

Lemma world_data_unique_keys : unique_keys world_data.
Proof.
  unfold unique_keys. simpl.
  repeat constructor; simpl; intuition discriminate.
Qed.

Lemma slice_one_row_per_year_witness :
  NoDup (column year (filtered_data world_data "Global" 2019 2020)) /\
  (List.length (filtered_data world_data "Global" 2019 2020)
   <= Z.to_nat (2020 - 2019 + 1))%nat.
Proof.
  apply (@slice_one_row_per_year world_data "Global" 2019 2020).
  apply world_data_unique_keys.
Defined.

(** X7.  The preview never shows more than 20 rows, and it shows rows of
    the slice only; when no two rows of the data set tell of the same
    country in the same year and the interval spans at most 20 years, it
    shows the whole slice. *)
Theorem preview_whole_slice :
  forall (data : Frame) (selected_country : string) (start_year end_year : Z),
    (List.length
       (preview (filtered_data data selected_country start_year end_year))
     <= 20)%nat /\
    (forall lr,
        In lr (preview (filtered_data data selected_country
                          start_year end_year)) ->
        In lr (filtered_data data selected_country start_year end_year)) /\
    (unique_keys data -> end_year - start_year < 20 ->
     preview (filtered_data data selected_country start_year end_year)
     = filtered_data data selected_country start_year end_year).
Proof.
  intros data sel s e. unfold preview, head. split; [|split].
  - apply firstn_le_length.
  - intros lr. apply In_firstn.
  - intros Hk Hspan. apply firstn_all2.
    pose proof (slice_length_le sel s e Hk). lia.
Qed.

Lemma preview_whole_slice_witness :
  preview (filtered_data world_data "Global" 2019 2020)
  = filtered_data world_data "Global" 2019 2020.
Proof.
  destruct (preview_whole_slice world_data "Global" 2019 2020)
    as [_ [_ H]].
  apply H; [apply world_data_unique_keys | lia].
Defined.

(* ================================================================== *)
(** ** Further properties: the ranking *)
(* ================================================================== *)

Section RankingMore.

Lemma firstn_nil_inv (A : Type) (n : nat) (l : list A) :
  firstn (S n) l = [] -> l = [].
Proof. destruct l; [reflexivity | discriminate]. Qed.

Lemma qualifies_year_only (end_year : Z) (data : Frame) :
  filter (qualifies end_year)
         (filter (fun lr => year (snd lr) =? end_year) data)
  = filter (qualifies end_year) data.
Proof.
  rewrite filter_filter_andb. apply filter_ext. intros lr.
  unfold qualifies. destruct (year (snd lr) =? end_year); reflexivity.
Qed.

End RankingMore.

(** X8.  The ranking holds the greatest emitters: on a data set whose
    [co2] holds no NaN, a qualifying row that is left out of the ranking
    has a [co2] no greater than that of any row of the ranking. *)
Theorem ranking_holds_the_greatest :
  forall (data : Frame) (selected_country : string) (start_year end_year : Z)
         (kept left_out : label * Row),
    Forall co2_notna data ->
    In kept (country_ranking_data data selected_country start_year end_year) ->
    In left_out data ->
    year (snd left_out) = end_year ->
    ~ In (country (snd left_out))
         ["World"; "International Transport"; "Oceania";
          "Asia"; "Europe"; "Africa"] ->
    ~ In left_out
         (country_ranking_data data selected_country start_year end_year) ->
    (co2 (snd left_out) <=? co2 (snd kept))%float = true.
Proof.
  intros data sel s e kept out Hna Hk Hin Hy Hagg Hout.
  rewrite country_ranking_data_filter in Hk, Hout. unfold head in Hk, Hout.
  set (q := filter (qualifies e) data) in *.
  assert (Hq : Forall co2_notna q) by now apply Forall_filter.
  pose proof (sort_values_co2_desc_sorted Hq) as Hs.
  assert (Hoq : In out (sort_values_co2_desc q)).
  { apply (Permutation_in _ (Permutation_sym (sort_values_co2_desc_perm q))).
    apply filter_In. split; [assumption|].
    apply qualifies_spec. now split. }
  rewrite <- (firstn_skipn 10 (sort_values_co2_desc q)) in Hs, Hoq.
  apply StronglySorted_app_iff in Hs. destruct Hs as [_ [_ Hs]].
  apply in_app_or in Hoq. destruct Hoq as [Hoq|Hoq]; [contradiction|].
  exact (Hs kept out Hk Hoq).
Qed.

Lemma ranking_holds_the_greatest_witness :
  (co2 (snd (0%nat, row "A" 2020 10))
   <=? co2 (snd (3%nat, row "D" 2020 40)))%float = true.
Proof.
  apply (@ranking_holds_the_greatest twelve_data "Global" 2000 2020
           (3%nat, row "D" 2020 40) (0%nat, row "A" 2020 10)).
  - repeat constructor.
  - vm_compute. tauto.
  - left. reflexivity.
  - reflexivity.
  - simpl. intuition discriminate.
  - vm_compute. intuition discriminate.
Defined.

(** X9.  The ranking is empty exactly when the data set has no row of the
    end year outside the six aggregates: only then is "No ranking data
    available" shown. *)
Theorem ranking_empty_iff :
  forall (data : Frame) (selected_country : string) (start_year end_year : Z),
    country_ranking_data data selected_country start_year end_year = [] <->
    (forall lr, In lr data ->
                ~ (year (snd lr) = end_year /\
                   ~ In (country (snd lr))
                        ["World"; "International Transport"; "Oceania";
                         "Asia"; "Europe"; "Africa"])).
Proof.
  intros data sel s e. rewrite country_ranking_data_filter. unfold head.
  split.
  - intros H lr Hin Hq. apply firstn_nil_inv in H.
    pose proof (sort_values_co2_desc_perm (filter (qualifies e) data)) as P.
    rewrite H in P. apply Permutation_nil in P.
    assert (Hlr : In lr (filter (qualifies e) data)).
    { apply filter_In. split; [assumption | now apply qualifies_spec]. }
    rewrite P in Hlr. contradiction.
  - intros H. rewrite (@filter_none _ (qualifies e) data); [reflexivity|].
    intros lr Hin. destruct (qualifies e lr) eqn:E; [|reflexivity].
    apply qualifies_spec in E. exfalso. exact (H lr Hin E).
Qed.

(** X10.  The ranking is computed from the rows of the end year alone:
    dropping every other row from the data set, choosing another country
    or another start year does not change it. *)
Theorem ranking_from_end_year_rows :
  forall (data : Frame) (selected_country selected_country' : string)
         (start_year start_year' end_year : Z),
    country_ranking_data
      (filter (fun lr => year (snd lr) =? end_year) data)
      selected_country' start_year' end_year
    = country_ranking_data data selected_country start_year end_year.
Proof.
  intros data sel sel' s s' e.
  now rewrite !country_ranking_data_filter, qualifies_year_only.
Qed.

(* ================================================================== *)
(** ** Further properties: the metrics *)
(* ================================================================== *)

(** X11.  For a well-formed data set and a selection that matches at least
    one row, the metrics are shown, and the peak year is the year of a row
    of the data set that belongs to the selected entity and lies within
    the selected interval; the peak value equals the [co2] of that row,
    and is the [co2] of a row of the selection. *)
Theorem peak_within_selection :
  forall (series_max : list float -> float)
         (data : Frame) (selected_country : string) (start_year end_year : Z),
    let entity :=
      if String.eqb selected_country "Global" then "World"
      else selected_country in
    max_contract series_max ->
    well_formed data ->
    filtered_data data selected_country start_year end_year <> [] ->
    exists m lr,
      summarize series_max
        (filtered_data data selected_country start_year end_year)
      = Ok (Some m) /\
      In lr data /\
      country (snd lr) = entity /\
      year (snd lr) = max_emissions_year (metrics m) /\
      (max_emissions_value (metrics m) =? co2 (snd lr))%float = true /\
      In (max_emissions_value (metrics m))
         (column co2
            (filtered_data data selected_country start_year end_year)) /\
      start_year <= max_emissions_year (metrics m) <= end_year.
Proof.
  intros series_max data sel s e entity Hmax Hwf Hne.
  pose proof (well_formed_filtered_data sel s e Hwf) as Hwf'.
  destruct (summarize_first_max series_max Hne Hwf')
    as [lr [c [Hfm [_ Hs]]]].
  assert (Hv : (series_max (column co2 (filtered_data data sel s e))
                =? co2 (snd lr))%float = true).
  { destruct Hwf' as [_ Hna]. now apply series_max_first_max. }
  assert (Hin' : In (series_max (column co2 (filtered_data data sel s e)))
                    (column co2 (filtered_data data sel s e))).
  { apply Hmax.
    - destruct (filtered_data data sel s e); [congruence | discriminate].
    - apply column_notna. apply Hwf'. }
  apply first_max_In in Hfm. rewrite filtered_data_filter in Hfm.
  apply filter_In in Hfm. destruct Hfm as [Hin Hsl].
  apply in_slice_spec in Hsl. destruct Hsl as [Hc Hy].
  eexists. exists lr. split; [exact Hs|].
  cbn [metrics max_emissions_year max_emissions_value]. auto 10.
Qed.

Lemma peak_within_selection_witness :
  exists m lr,
    summarize max_last (filtered_data world_data "Global" 2019 2020)
    = Ok (Some m) /\
    In lr world_data /\
    country (snd lr) = "World" /\
    year (snd lr) = max_emissions_year (metrics m) /\
    (max_emissions_value (metrics m) =? co2 (snd lr))%float = true /\
    In (max_emissions_value (metrics m))
       (column co2 (filtered_data world_data "Global" 2019 2020)) /\
    2019 <= max_emissions_year (metrics m) <= 2020.
Proof.
  apply (@peak_within_selection max_last world_data "Global" 2019 2020).
  - apply max_last_meets_contract.
  - apply world_data_well_formed.
  - discriminate.
Defined.

(** X12.  When the first and the last row of a slice hold the same finite
    emission, the change shown is zero. *)
Theorem change_zero_when_unchanged :
  forall (first_row last_row : label * Row) (mid : Frame),
    is_finite (co2 (snd first_row)) = true ->
    co2 (snd last_row) = co2 (snd first_row) ->
    exists c,
      change_metric (first_row :: mid ++ [last_row]) = Ok (Some c) /\
      (c =? 0)%float = true.
Proof.
  intros first_row last_row mid Hfin Heq.
  rewrite change_metric_two_rows. unfold percent_change. rewrite Heq.
  eexists. split; [reflexivity|].
  destruct (co2 (snd first_row) =? 0)%float eqn:E.
  - reflexivity.
  - rewrite (F64.sub_diag _ Hfin). now apply F64.zero_div_mul.
Qed.

Lemma change_zero_when_unchanged_witness :
  exists c,
    change_metric
      ((0%nat, row "France" 2001 300)
         :: [(1%nat, row "France" 2002 500)]
         ++ [(2%nat, row "France" 2003 300)]) = Ok (Some c) /\
    (c =? 0)%float = true.
Proof.
  apply (@change_zero_when_unchanged
           (0%nat, row "France" 2001 300) (2%nat, row "France" 2003 300)
           [(1%nat, row "France" 2002 500)]); reflexivity.
Defined.

(* ================================================================== *)
(** ** Further properties: the sidebar *)
(* ================================================================== *)

Section StringOrder.

Lemma string_compare_refl (s : string) : String.compare s s = Eq.
Proof.
  induction s as [|c s IH]; simpl; [reflexivity|].
  unfold Ascii.compare. now rewrite N.compare_refl.
Qed.

Lemma string_compare_lt_trans (a b c : string) :
  String.compare a b = Lt -> String.compare b c = Lt ->
  String.compare a c = Lt.
Proof.
  revert b c. induction a as [|x a IH]; intros [|y b] [|z c]; simpl;
    try congruence.
  destruct (Ascii.compare x y) eqn:Exy; try discriminate;
    destruct (Ascii.compare y z) eqn:Eyz; try discriminate; intros H1 H2.
  - apply Ascii.compare_eq_iff in Exy, Eyz. subst.
    unfold Ascii.compare. rewrite N.compare_refl. now apply IH with b.
  - apply Ascii.compare_eq_iff in Exy. subst. now rewrite Eyz.
  - apply Ascii.compare_eq_iff in Eyz. subst. now rewrite Exy.
  - unfold Ascii.compare in *. rewrite N.compare_lt_iff in *.
    replace (Ascii.N_of_ascii x ?= Ascii.N_of_ascii z)%N with Lt;
      [reflexivity|].
    symmetry. apply N.compare_lt_iff. lia.
Qed.

Lemma str_le_trans (a b c : string) : str_le a b -> str_le b c -> str_le a c.
Proof.
  unfold str_le, String.leb.
  destruct (String.compare a b) eqn:Eab; try discriminate;
    destruct (String.compare b c) eqn:Ebc; try discriminate; intros _ _.
  - apply String.compare_eq_iff in Eab, Ebc. subst.
    now rewrite string_compare_refl.
  - apply String.compare_eq_iff in Eab. subst. now rewrite Ebc.
  - apply String.compare_eq_iff in Ebc. subst. now rewrite Eab.
  - now rewrite (string_compare_lt_trans _ _ _ Eab Ebc).
Qed.

Lemma insert_str_perm (x : string) (l : list string) :
  Permutation (insert_str x l) (x :: l).
Proof.
  induction l as [|y l IH]; simpl; [reflexivity|].
  destruct (String.leb x y); [reflexivity|].
  rewrite IH. apply perm_swap.
Qed.

Lemma sorted_perm (l : list string) : Permutation (sorted l) l.
Proof.
  induction l as [|x l IH]; simpl; [reflexivity|].
  rewrite insert_str_perm. now constructor.
Qed.

Lemma insert_str_sorted (x : string) (l : list string) :
  StronglySorted str_le l -> StronglySorted str_le (insert_str x l).
Proof.
  induction 1 as [|y l Hs IH Hf]; simpl.
  - repeat constructor.
  - destruct (String.leb x y) eqn:E.
    + constructor; [now constructor|].
      constructor; [exact E|].
      rewrite Forall_forall in *. intros z Hz.
      apply str_le_trans with y; [exact E | now apply Hf].
    + constructor; [assumption|].
      assert (Hyx : str_le y x).
      { destruct (String.leb_total x y) as [H|H]; [congruence | exact H]. }
      rewrite Forall_forall in *. intros z Hz.
      apply (Permutation_in _ (insert_str_perm x l)) in Hz.
      destruct Hz as [Hz|Hz]; [now subst | now apply Hf].
Qed.

Lemma sorted_sorted (l : list string) : StronglySorted str_le (sorted l).
Proof.
  induction l as [|x l IH]; simpl; [constructor|].
  now apply insert_str_sorted.
Qed.

End StringOrder.

Section Options.

Lemma unique_In (l : list string) (c : string) : In c (unique l) <-> In c l.
Proof.
  induction l as [|x l IH]; simpl; [tauto|].
  rewrite filter_In, IH, negb_true_iff, String.eqb_neq.
  destruct (String.eqb_spec x c) as [->|Hne]; [tauto|].
  split; [tauto|]. intros [H|H]; [contradiction|]. right. split; congruence.
Qed.

Lemma unique_NoDup (l : list string) : NoDup (unique l).
Proof.
  induction l as [|x l IH]; simpl; constructor.
  - rewrite filter_In, negb_true_iff, String.eqb_neq. tauto.
  - now apply NoDup_filter.
Qed.

Lemma list_remove_absent (l : list string) (x : string) :
  ~ In x l -> list_remove l x = Raise ValueError.
Proof.
  induction l as [|y l IH]; simpl; intros H; [reflexivity|].
  destruct (String.eqb_spec y x) as [->|Hne]; [tauto|].
  rewrite IH by tauto. reflexivity.
Qed.

Lemma list_remove_present (l : list string) (x : string) :
  NoDup l -> In x l ->
  list_remove l x = Ok (filter (fun y => negb (String.eqb y x)) l).
Proof.
  induction l as [|y l IH]; simpl; intros Hnd Hin; [tauto|].
  apply NoDup_cons_iff in Hnd. destruct Hnd as [Hy Hnd].
  destruct (String.eqb_spec y x) as [->|Hne]; simpl.
  - f_equal. symmetry. apply forallb_filter_id. apply forallb_forall.
    intros z Hz. apply negb_true_iff, String.eqb_neq. congruence.
  - destruct Hin as [Hin|Hin]; [contradiction|].
    now rewrite IH.
Qed.

(** The sorted list of the distinct countries of the data set. *)
Lemma countries_spec (data : Frame) :
  let l := sorted (unique (column country data)) in
  NoDup l /\ StronglySorted str_le l /\
  (forall c, In c l <-> has_country data c).
Proof.
  intros l. split; [|split].
  - apply (Permutation_NoDup (Permutation_sym (sorted_perm _))).
    apply unique_NoDup.
  - apply sorted_sorted.
  - intros c. unfold l. split.
    + intros H. apply (Permutation_in _ (sorted_perm _)) in H.
      apply (proj1 (unique_In _ _)) in H. unfold column in H.
      apply in_map_iff in H.
      destruct H as [lr [E Hin]]. now exists lr.
    + intros [lr [Hin E]].
      apply (Permutation_in _ (Permutation_sym (sorted_perm _))).
      apply unique_In. unfold column. apply in_map_iff. now exists lr.
Qed.

Lemma fold_min_spec (ys : list Z) (y : Z) :
  let m := fold_left Z.min ys y in
  In m (y :: ys) /\ forall z, In z (y :: ys) -> m <= z.
Proof.
  revert y. induction ys as [|x ys IH]; intros y; simpl.
  - split; [now left | intros z [<-|[]]; lia].
  - destruct (IH (Z.min y x)) as [Hin Hle]. simpl in Hin. split.
    + destruct Hin as [Hin|Hin]; [|now right; right].
      rewrite <- Hin. destruct (Z.min_spec y x) as [[_ ->]|[_ ->]]; auto.
    + intros z [<-|[<-|Hz]].
      * specialize (Hle (Z.min y x) (or_introl eq_refl)). lia.
      * specialize (Hle (Z.min y x) (or_introl eq_refl)). lia.
      * apply Hle. now right.
Qed.

Lemma fold_max_spec (ys : list Z) (y : Z) :
  let m := fold_left Z.max ys y in
  In m (y :: ys) /\ forall z, In z (y :: ys) -> z <= m.
Proof.
  revert y. induction ys as [|x ys IH]; intros y; simpl.
  - split; [now left | intros z [<-|[]]; lia].
  - destruct (IH (Z.max y x)) as [Hin Hle]. simpl in Hin. split.
    + destruct Hin as [Hin|Hin]; [|now right; right].
      rewrite <- Hin. destruct (Z.max_spec y x) as [[_ ->]|[_ ->]]; auto.
    + intros z [<-|[<-|Hz]].
      * specialize (Hle (Z.max y x) (or_introl eq_refl)). lia.
      * specialize (Hle (Z.max y x) (or_introl eq_refl)). lia.
      * apply Hle. now right.
Qed.

Lemma min_year_spec (data : Frame) (lo : Z) :
  min_year data = Ok lo ->
  (exists lr, In lr data /\ year (snd lr) = lo) /\
  forall lr, In lr data -> lo <= year (snd lr).
Proof.
  unfold min_year. destruct data as [|a data]; simpl; [discriminate|].
  intros H. injection H as <-.
  destruct (fold_min_spec (column year data) (year (snd a))) as [Hin Hle].
  split.
  - change (year (snd a) :: column year data)
      with (column year (a :: data)) in Hin.
    unfold column in Hin. apply in_map_iff in Hin.
    destruct Hin as [lr [E Hlr]]. now exists lr.
  - intros lr Hlr. apply Hle.
    change (In (year (snd lr)) (column year (a :: data))).
    unfold column. now apply in_map with (f := fun x => year (snd x)).
Qed.

Lemma max_year_spec (data : Frame) (hi : Z) :
  max_year data = Ok hi ->
  (exists lr, In lr data /\ year (snd lr) = hi) /\
  forall lr, In lr data -> year (snd lr) <= hi.
Proof.
  unfold max_year. destruct data as [|a data]; simpl; [discriminate|].
  intros H. injection H as <-.
  destruct (fold_max_spec (column year data) (year (snd a))) as [Hin Hle].
  split.
  - change (year (snd a) :: column year data)
      with (column year (a :: data)) in Hin.
    unfold column in Hin. apply in_map_iff in Hin.
    destruct Hin as [lr [E Hlr]]. now exists lr.
  - intros lr Hlr. apply Hle.
    change (In (year (snd lr)) (column year (a :: data))).
    unfold column. now apply in_map with (f := fun x => year (snd x)).
Qed.

Lemma year_bounds_exist (data : Frame) :
  data <> [] -> exists lo hi, min_year data = Ok lo /\ max_year data = Ok hi.
Proof.
  destruct data as [|a data]; [congruence|]. intros _.
  unfold min_year, max_year. simpl. eauto.
Qed.

Lemma country_list_with_world (data : Frame) :
  has_country data "World" ->
  country_list data
  = Ok ("Global" :: "United States"
          :: filter (fun y => negb (String.eqb y "World"))
               (sorted (unique (column country data)))).
Proof.
  intros H. destruct (countries_spec data) as [Hnd [_ Hin]].
  unfold country_list.
  rewrite (@list_remove_present _ "World" Hnd (proj2 (Hin "World") H)).
  reflexivity.
Qed.

Lemma country_list_without_world (data : Frame) :
  ~ has_country data "World" -> country_list data = Raise ValueError.
Proof.
  intros H. destruct (countries_spec data) as [_ [_ Hin]].
  unfold country_list. rewrite list_remove_absent; [reflexivity|].
  intros Hw. apply H. now apply Hin.
Qed.

Lemma has_country_dec (data : Frame) (c : string) :
  has_country data c \/ ~ has_country data c.
Proof.
  induction data as [|lr data IH].
  - right. intros [x [[] _]].
  - destruct (String.eqb_spec (country (snd lr)) c) as [E|Hne].
    + left. exists lr. split; [now left | exact E].
    + destruct IH as [[x [Hin E]]|Hno].
      * left. exists x. split; [now right | exact E].
      * right. intros [x [[->|Hin] E]]; [contradiction|].
        apply Hno. now exists x.
Qed.

End Options.

(** X13.  On a data set that is not empty the bounds of the slider are the
    least and the greatest year of the data set: both are years of some
    row, and the year of every row lies between them. *)
Theorem year_bounds :
  forall (data : Frame),
    data <> [] ->
    exists lo hi,
      min_year data = Ok lo /\ max_year data = Ok hi /\ lo <= hi /\
      (forall lr, In lr data -> lo <= year (snd lr) <= hi) /\
      (exists lr, In lr data /\ year (snd lr) = lo) /\
      (exists lr, In lr data /\ year (snd lr) = hi).
Proof.
  intros data Hne. destruct data as [|a data]; [congruence|].
  destruct (min_year (a :: data)) as [lo|e] eqn:El; [|discriminate].
  destruct (max_year (a :: data)) as [hi|e] eqn:Eh; [|discriminate].
  destruct (min_year_spec _ El) as [Hlo Hge].
  destruct (max_year_spec _ Eh) as [Hhi Hle].
  exists lo, hi. repeat split; auto.
  specialize (Hge a (or_introl eq_refl)).
  specialize (Hle a (or_introl eq_refl)). lia.
Qed.

Lemma year_bounds_witness :
  exists lo hi,
    min_year world_data = Ok lo /\ max_year world_data = Ok hi /\ lo <= hi /\
    (forall lr, In lr world_data -> lo <= year (snd lr) <= hi) /\
    (exists lr, In lr world_data /\ year (snd lr) = lo) /\
    (exists lr, In lr world_data /\ year (snd lr) = hi).
Proof.
  apply (@year_bounds world_data). discriminate.
Defined.

(** X14.  With the slider left at its full range, from the least to the
    greatest year of the data set, the time series holds every row of the
    selected entity. *)
Theorem full_range_keeps_entity :
  forall (data : Frame) (selected_country : string) (lo hi : Z),
    let entity :=
      if String.eqb selected_country "Global" then "World"
      else selected_country in
    min_year data = Ok lo -> max_year data = Ok hi ->
    filtered_data data selected_country lo hi
    = filter (fun lr => String.eqb (country (snd lr)) entity) data.
Proof.
  intros data sel lo hi entity Hlo Hhi.
  destruct (min_year_spec _ Hlo) as [_ Hge].
  destruct (max_year_spec _ Hhi) as [_ Hle].
  rewrite filtered_data_filter. change (entity_of sel) with entity.
  apply filter_ext_in. intros lr Hin. unfold in_slice.
  rewrite (proj2 (Z.leb_le _ _) (Hge lr Hin)).
  rewrite (proj2 (Z.leb_le _ _) (Hle lr Hin)).
  now rewrite !andb_true_r.
Qed.

Lemma full_range_keeps_entity_witness :
  filtered_data world_data "Global" 2019 2020
  = filter (fun lr => String.eqb (country (snd lr)) "World") world_data.
Proof.
  apply (@full_range_keeps_entity world_data "Global" 2019 2020);
    reflexivity.
Defined.

(** X15.  The options of the select box are built only for a data set
    that has a row of country "World": without one, [remove] at line 51
    finds nothing to remove and raises. *)
Theorem country_list_needs_world :
  forall (data : Frame) (options : list string),
    country_list data = Ok options -> has_country data "World".
Proof.
  intros data options H.
  destruct (has_country_dec data "World") as [Hw|Hw]; [exact Hw|].
  rewrite (country_list_without_world Hw) in H. discriminate.
Qed.

Lemma country_list_needs_world_witness : has_country world_data "World".
Proof.
  apply (@country_list_needs_world world_data
           ["Global"; "United States"; "Asia"; "China"; "France"; "India"]).
  reflexivity.
Defined.

(** X16.  When the options are built they are "Global", then
    "United States", then the countries of the data set other than
    "World", each once, in ascending order. *)
Theorem country_list_options :
  forall (data : Frame) (options : list string),
    country_list data = Ok options ->
    exists countries,
      options = "Global" :: "United States" :: countries /\
      StronglySorted str_le countries /\
      NoDup countries /\
      forall c, In c countries <-> c <> "World" /\ has_country data c.
Proof.
  intros data options H.
  destruct (has_country_dec data "World") as [Hw|Hw].
  2:{ rewrite (country_list_without_world Hw) in H. discriminate. }
  rewrite (country_list_with_world Hw) in H. injection H as <-.
  destruct (countries_spec data) as [Hnd [Hs Hin]].
  eexists. split; [reflexivity|]. split; [|split].
  - now apply StronglySorted_filter.
  - now apply NoDup_filter.
  - intros c. rewrite filter_In, negb_true_iff, String.eqb_neq, Hin. tauto.
Qed.

Lemma country_list_options_witness :
  exists countries,
    ["Global"; "United States"; "Asia"; "China"; "France"; "India"]
    = "Global" :: "United States" :: countries /\
    StronglySorted str_le countries /\
    NoDup countries /\
    forall c, In c countries <-> c <> "World" /\ has_country world_data c.
Proof.
  apply (@country_list_options world_data
           ["Global"; "United States"; "Asia"; "China"; "France"; "India"]).
  reflexivity.
Defined.

(** X17.  The select box opens on its second option, which is
    "United States", whether or not the data set has such a country. *)
Theorem default_is_united_states :
  forall (data : Frame) (options : list string),
    country_list data = Ok options ->
    default_index options = Ok 1%nat /\
    nth_error options 1 = Some "United States".
Proof.
  intros data options H.
  destruct (has_country_dec data "World") as [Hw|Hw].
  2:{ rewrite (country_list_without_world Hw) in H. discriminate. }
  rewrite (country_list_with_world Hw) in H. injection H as <-.
  split; reflexivity.
Qed.

Lemma default_is_united_states_witness :
  default_index
    ["Global"; "United States"; "Asia"; "China"; "France"; "India"]
  = Ok 1%nat /\
  nth_error ["Global"; "United States"; "Asia"; "China"; "France"; "India"] 1
  = Some "United States".
Proof.
  apply (@default_is_united_states world_data
           ["Global"; "United States"; "Asia"; "China"; "France"; "India"]).
  reflexivity.
Defined.

(** X18.  Every option of the select box has rows to show over the full
    range of years, except that "United States", which is offered in any
    case, has rows only when the data set has such a country. *)
Theorem options_have_data :
  forall (data : Frame) (options : list string) (lo hi : Z) (c : string),
    country_list data = Ok options ->
    min_year data = Ok lo -> max_year data = Ok hi ->
    In c options ->
    c <> "United States" \/ has_country data "United States" ->
    filtered_data data c lo hi <> [].
Proof.
  intros data options lo hi c Hl Hlo Hhi Hin Hus.
  destruct (has_country_dec data "World") as [Hw|Hw].
  2:{ rewrite (country_list_without_world Hw) in Hl. discriminate. }
  rewrite (country_list_with_world Hw) in Hl. injection Hl as <-.
  destruct (countries_spec data) as [_ [_ Hc]].
  assert (He : has_country data (entity_of c)).
  { unfold entity_of. destruct (String.eqb_spec c "Global") as [->|Hg];
      [exact Hw|].
    destruct Hin as [Hin|[Hin|Hin]].
    - congruence.
    - subst c. destruct Hus as [Hus|Hus]; [congruence | exact Hus].
    - apply filter_In in Hin. destruct Hin as [Hin _]. now apply Hc. }
  destruct He as [lr [Hlr E]].
  destruct (min_year_spec _ Hlo) as [_ Hge].
  destruct (max_year_spec _ Hhi) as [_ Hle].
  assert (Hsl : In lr (filtered_data data c lo hi)).
  { rewrite filtered_data_filter. apply filter_In. split; [assumption|].
    apply in_slice_spec. split; [assumption|]. split; auto. }
  intros Hnil. rewrite Hnil in Hsl. contradiction.
Qed.

Lemma options_have_data_witness :
  filtered_data world_data "France" 2019 2020 <> [].
Proof.
  apply (@options_have_data world_data
           ["Global"; "United States"; "Asia"; "China"; "France"; "India"]
           2019 2020 "France"); try reflexivity.
  - simpl. tauto.
  - left. discriminate.
Defined.
